(** * Base Horizon: the network/session state machine and the read-only
      query layer of [app/base-horizon.ts], as a shallow embedding.

    The script keeps two module-level variables ([active], [session]) and a
    handful of DOM fields; its four click handlers are [async] functions
    whose only suspension points are the wallet and RPC requests.  The
    embedding keeps that shape: a record for the mutable globals, a small
    resumption monad whose nodes are the suspension points, and an
    interpreter that answers every request from an oracle and lets other
    handlers run (and change the globals) while a handler is suspended. *)

From Stdlib Require Import ZArith List String Ascii Bool Lia.
From Stdlib Require Import DecimalString.
Import ListNotations.
Open Scope string_scope.
Open Scope Z_scope.

Set Implicit Arguments.

(** ** JavaScript values the script manipulates *)

(** A thrown value, seen through the two observations the handlers make of
    it: [e?.message] and [String(e)], both as the strings the template
    literal turns them into.  A value whose conversion to a string itself
    throws (an object without [toString], say) is not among them. *)
Record Thrown := { message : option string; asString : string }.

(** [new Error(m)] *)
Definition Error (m : string) : Thrown :=
  {| message := Some m; asString := "Error: " ++ m |}.

(** [e?.message ?? String(e)] *)
Definition describe (e : Thrown) : string :=
  match message e with
  | Some m => m
  | None => asString e
  end.

(** A settled promise. *)
Inductive Settled (A : Type) : Type :=
| Fulfilled (a : A)
| Rejected (e : Thrown).
Arguments Fulfilled {A} a.
Arguments Rejected {A} e.

(** A JavaScript number as [parseInt] produces it: [NaN], or the Number
    value of an integer [z], that is the double nearest to [z] (ties to
    even, infinite beyond the largest double).  The integer is kept exact
    and rounded where the number is observed, in [Number_toString]; the
    sign of zero, which no rendering shows, is not represented. *)
Inductive JsNumber := NaN | Int (z : Z).

(** [lines.join("\n")] *)
Definition newline : string := String (ascii_of_nat 10) EmptyString.

Fixpoint join (sep : string) (lines : list string) : string :=
  match lines with
  | [] => ""
  | [l] => l
  | l :: rest => l ++ sep ++ join sep rest
  end.

(** Template-literal conversion of a bigint. *)
Definition bigint_toString (z : Z) : string := NilZero.string_of_int (Z.to_int z).

(** *** Template-literal conversion of a number (ECMAScript 6.1.6.1.20)

    The double nearest to an integer [a >= 0], as the integer it is worth;
    [None] when [a] rounds to [Infinity].  Below 2^53 every integer is a
    double; above, a double is a 53-bit integer [q] times a power of two. *)
Definition nearest_double (a : Z) : option Z :=
  if a <? 2 ^ 53 then Some a
  else
    let e := Z.log2 a - 52 in
    let q := a / 2 ^ e in
    let r := a mod 2 ^ e in
    let half := 2 ^ (e - 1) in
    let q := if (half <? r) || ((r =? half) && Z.odd q) then q + 1 else q in
    let v := q * 2 ^ e in
    if 2 ^ 1024 <=? v then None else Some v.

(** Whether the integer [c] rounds to the double [v] (an integer, at least
    2^53): [c] lies within half the gap to the doubles next to [v], the
    bounds included when the significand of [v] is even. *)
Definition rounds_to (v c : Z) : bool :=
  let e := Z.log2 v - 52 in
  let q := v / 2 ^ e in
  let below := if q =? 2 ^ 52 then 2 ^ (e - 1) else 2 ^ e in
  if Z.even q
  then (2 * v - below <=? 2 * c) && (2 * c <=? 2 * v + 2 ^ e)
  else (2 * v - below <? 2 * c) && (2 * c <? 2 * v + 2 ^ e).

(** The decimal with the fewest significant digits that rounds to [v], the
    one closest to [v] if there are several (an even last digit on a tie):
    the first multiple of [10^p] next to [v] that rounds to it, trying [p]
    from the number of digits of [v] downwards. *)
Fixpoint shortest_decimal (v : Z) (p : nat) : Z :=
  match p with
  | O => v
  | S p' =>
      let t := 10 ^ Z.of_nat p in
      let c1 := (v / t) * t in
      let c2 := c1 + t in
      let ok1 := (0 <? c1) && rounds_to v c1 in
      let ok2 := rounds_to v c2 in
      if ok1 && ok2 then
        if v - c1 <? c2 - v then c1
        else if c2 - v <? v - c1 then c2
        else if Z.even (c1 / t) then c1 else c2
      else if ok1 then c1
      else if ok2 then c2
      else shortest_decimal v p'
  end.

Fixpoint strip_trailing_zeros (fuel : nat) (c : Z) : Z :=
  match fuel with
  | O => c
  | S fuel' =>
      if (0 <? c) && (c mod 10 =? 0) then strip_trailing_zeros fuel' (c / 10) else c
  end.

(** The rendering of a double worth the integer [v >= 0]: all its digits up
    to 21 of them, the exponent form beyond. *)
Definition double_toString (v : Z) : string :=
  if v <? 2 ^ 53 then bigint_toString v
  else
    let c := shortest_decimal v (String.length (bigint_toString v)) in
    let n := String.length (bigint_toString c) in
    if Nat.leb n 21 then bigint_toString c
    else
      let digits := bigint_toString (strip_trailing_zeros n c) in
      let exponent := bigint_toString (Z.of_nat (n - 1)) in
      match digits with
      | String d EmptyString => String d EmptyString ++ "e+" ++ exponent
      | String d more => String d EmptyString ++ "." ++ more ++ "e+" ++ exponent
      | EmptyString => ""
      end.

Definition Number_toString (n : JsNumber) : string :=
  match n with
  | NaN => "NaN"
  | Int z =>
      let sign := if z <? 0 then "-" else "" in
      match nearest_double (Z.abs z) with
      | Some v => sign ++ double_toString v
      | None => sign ++ "Infinity"
      end
  end.

(** ** [parseInt(string, radix)] (ECMAScript 19.2.5)

    A string of the script is held as its UTF-8 bytes, as the string
    literals of this file are.  The characters [parseInt] tells apart are
    the white space and line terminators it skips, all of one, two or three
    bytes, and the signs, prefix and digits, all ASCII. *)

(** TAB, LF, VT, FF, CR, SP *)
Definition isWhiteSpace (c : ascii) : bool :=
  let n := nat_of_ascii c in
  (Nat.eqb n 9 || Nat.eqb n 10 || Nat.eqb n 11 || Nat.eqb n 12
   || Nat.eqb n 13 || Nat.eqb n 32)%bool.

(** U+00A0 *)
Definition isWhiteSpace2 (c1 c2 : ascii) : bool :=
  (Nat.eqb (nat_of_ascii c1) 194 && Nat.eqb (nat_of_ascii c2) 160)%bool.

(** U+1680, U+2000 to U+200A, U+2028, U+2029, U+202F, U+205F, U+3000,
    U+FEFF *)
Definition isWhiteSpace3 (c1 c2 c3 : ascii) : bool :=
  let n1 := nat_of_ascii c1 in
  let n2 := nat_of_ascii c2 in
  let n3 := nat_of_ascii c3 in
  ((Nat.eqb n1 225 && Nat.eqb n2 154 && Nat.eqb n3 128)
   || (Nat.eqb n1 226 && Nat.eqb n2 128
       && ((Nat.leb 128 n3 && Nat.leb n3 138) || Nat.eqb n3 168 || Nat.eqb n3 169
           || Nat.eqb n3 175))
   || (Nat.eqb n1 226 && Nat.eqb n2 129 && Nat.eqb n3 159)
   || (Nat.eqb n1 227 && Nat.eqb n2 128 && Nat.eqb n3 128)
   || (Nat.eqb n1 239 && Nat.eqb n2 187 && Nat.eqb n3 191))%bool.

Fixpoint trimStart (s : string) : string :=
  match s with
  | EmptyString => s
  | String c1 r1 =>
      if isWhiteSpace c1 then trimStart r1
      else
        match r1 with
        | EmptyString => s
        | String c2 r2 =>
            if isWhiteSpace2 c1 c2 then trimStart r2
            else
              match r2 with
              | EmptyString => s
              | String c3 r3 => if isWhiteSpace3 c1 c2 c3 then trimStart r3 else s
              end
        end
  end.

(** Value of a character as a digit, in any radix up to 36. *)
Definition digitValue (c : ascii) : option Z :=
  let n := Z.of_nat (nat_of_ascii c) in
  if (48 <=? n) && (n <=? 57) then Some (n - 48)
  else if (97 <=? n) && (n <=? 122) then Some (n - 87)
  else if (65 <=? n) && (n <=? 90) then Some (n - 55)
  else None.

(** The longest prefix of radix-[R] digits, accumulated most significant
    digit first; [None] while no digit has been read. *)
Fixpoint digits (R : Z) (acc : option Z) (s : string) : option Z :=
  match s with
  | EmptyString => acc
  | String c rest =>
      match digitValue c with
      | Some d =>
          if d <? R
          then digits R (Some (match acc with Some a => a * R + d | None => d end)) rest
          else acc
      | None => acc
      end
  end.

Definition stripSign (s : string) : Z * string :=
  match s with
  | String "-" rest => (-1, rest)
  | String "+" rest => (1, rest)
  | _ => (1, s)
  end.

(** The rest of the string after a [0x] or [0X] prefix, if it has one. *)
Definition after0x (s : string) : option string :=
  match s with
  | String "0" (String "x" rest) => Some rest
  | String "0" (String "X" rest) => Some rest
  | _ => None
  end.

Definition parseInt (input : string) (radix : Z) : JsNumber :=
  let (sign, s) := stripSign (trimStart input) in
  if negb (radix =? 0) && ((radix <? 2) || (36 <? radix)) then NaN
  else
    let stripPrefix := (radix =? 0) || (radix =? 16) in
    let R := if radix =? 0 then 10 else radix in
    let (R, s) :=
      match (if stripPrefix then after0x s else None) with
      | Some rest => (16, rest)
      | None => (R, s)
      end in
    match digits R None s with
    | Some m => Int (sign * m)
    | None => NaN
    end.

(** ** Data model *)

(** The two chain descriptions imported from [viem/chains]. *)
Inductive Chain := base | baseSepolia.

Module Network.
Record t := {
  chain : Chain;
  chainId : Z;
  rpc : string;
  explorer : string;
  label : string;
}.
End Network.

Definition NETWORKS_0 : Network.t :=
  {| Network.chain := base;
     Network.chainId := 8453;
     Network.rpc := "https://mainnet.base.org";
     Network.explorer := "https://basescan.org";
     Network.label := "Base Mainnet" |}.

Definition NETWORKS_1 : Network.t :=
  {| Network.chain := baseSepolia;
     Network.chainId := 84532;
     Network.rpc := "https://sepolia.base.org";
     Network.explorer := "https://sepolia.basescan.org";
     Network.label := "Base Sepolia" |}.

Definition NETWORKS : list Network.t := [NETWORKS_0; NETWORKS_1].

(** [{ address, chainId }], the value [connectWallet] returns and [session]
    holds. *)
Module Session.
Record t := { address : string; chainId : JsNumber }.
End Session.

(** What [createPublicClient({ chain, transport: http(rpc) })] is built from. *)
Module Client.
Record t := { chain : Chain; transport : string }.
End Client.

(** What [sdk.makeWeb3Provider(rpc, chainId)] is built from. *)
Module Provider.
Record t := { jsonRpcUrl : string; chainId : Z }.
End Provider.

Record Block := { number : Z; timestamp : Z; gasUsed : Z }.

Record Fees := { maxFeePerGas : option Z; maxPriorityFeePerGas : option Z }.

Record Summary := { block : Z; balance : Z }.

Record Pulse := {
  p_number : Z;
  p_timestamp : Z;
  p_gasUsed : Z;
  p_maxFeePerGas : option Z;
  p_maxPriorityFeePerGas : option Z;
}.

(** The module-level variables and the DOM fields the handlers touch. *)
Record State := {
  active : Network.t;
  session : option Session.t;
  btnPulse_disabled : bool;
  btnAddr_disabled : bool;
  addrInput_value : string;
  out_textContent : string;
}.

Definition set_active (n : Network.t) (s : State) : State :=
  {| active := n; session := session s;
     btnPulse_disabled := btnPulse_disabled s; btnAddr_disabled := btnAddr_disabled s;
     addrInput_value := addrInput_value s; out_textContent := out_textContent s |}.

Definition set_session (v : option Session.t) (s : State) : State :=
  {| active := active s; session := v;
     btnPulse_disabled := btnPulse_disabled s; btnAddr_disabled := btnAddr_disabled s;
     addrInput_value := addrInput_value s; out_textContent := out_textContent s |}.

Definition set_btnPulse_disabled (b : bool) (s : State) : State :=
  {| active := active s; session := session s;
     btnPulse_disabled := b; btnAddr_disabled := btnAddr_disabled s;
     addrInput_value := addrInput_value s; out_textContent := out_textContent s |}.

Definition set_btnAddr_disabled (b : bool) (s : State) : State :=
  {| active := active s; session := session s;
     btnPulse_disabled := btnPulse_disabled s; btnAddr_disabled := b;
     addrInput_value := addrInput_value s; out_textContent := out_textContent s |}.

Definition set_addrInput_value (v : string) (s : State) : State :=
  {| active := active s; session := session s;
     btnPulse_disabled := btnPulse_disabled s; btnAddr_disabled := btnAddr_disabled s;
     addrInput_value := v; out_textContent := out_textContent s |}.

Definition set_out_textContent (v : string) (s : State) : State :=
  {| active := active s; session := session s;
     btnPulse_disabled := btnPulse_disabled s; btnAddr_disabled := btnAddr_disabled s;
     addrInput_value := addrInput_value s; out_textContent := v |}.

(** The globals as [mount()] leaves them: [active = NETWORKS[1]],
    [session = null], both dependent buttons disabled. *)
Definition mounted : State :=
  {| active := NETWORKS_1; session := None;
     btnPulse_disabled := true; btnAddr_disabled := true;
     addrInput_value := "";
     out_textContent :=
       join newline
         ["Ready.";
          "Active network: " ++ Network.label NETWORKS_1
            ++ " (chainId " ++ bigint_toString (Network.chainId NETWORKS_1) ++ ")";
          "Connect wallet to begin."] |}.

(** ** Requests to the external collaborators

    Every request carries what the provider or client it is made on was
    built from, so a request says which network it targets. *)
Inductive Call : Type -> Type :=
| eth_requestAccounts (p : Provider.t) : Call (option (list string))
| eth_chainId (p : Provider.t) : Call string
| getBlockNumber (c : Client.t) : Call Z
| getBalance (c : Client.t) (address : string) : Call Z
| getBlock (c : Client.t) : Call Block
| estimateFeesPerGas (c : Client.t) : Call Fees.

Inductive Issued := Issue (R : Type) (c : Call R).
Arguments Issue {R} c.

(** ** Asynchronous computations

    A computation runs synchronously, reading and assigning the globals,
    until it returns, throws, or reaches an [await].  [Await] issues one
    request and suspends; [AwaitAll] is [await Promise.all([c1, c2])]: both
    requests are issued before the suspension. *)
Inductive Async (A : Type) : Type :=
| Ret (r : Settled A)
| Read (k : State -> Async A)
| Assign (f : State -> State) (k : Async A)
| Await (R : Type) (c : Call R) (k : Settled R -> Async A)
| AwaitAll (R1 R2 : Type) (c1 : Call R1) (c2 : Call R2)
    (k : Settled (R1 * R2) -> Async A).
Arguments Ret {A} r.
Arguments Read {A} k.
Arguments Assign {A} f k.
Arguments Await {A R} c k.
Arguments AwaitAll {A R1 R2} c1 c2 k.

Definition ret {A} (a : A) : Async A := Ret (Fulfilled a).
Definition throw {A} (e : Thrown) : Async A := Ret (Rejected e).
Definition read : Async State := Read ret.
Definition assign (f : State -> State) : Async unit := Assign f (ret tt).
Definition await {R} (c : Call R) : Async R := Await c Ret.
Definition Promise_all {R1 R2} (c1 : Call R1) (c2 : Call R2) : Async (R1 * R2) :=
  AwaitAll c1 c2 Ret.

Fixpoint bind {A B} (m : Async A) (f : A -> Async B) : Async B :=
  match m with
  | Ret (Fulfilled a) => f a
  | Ret (Rejected e) => Ret (Rejected e)
  | Read k => Read (fun s => bind (k s) f)
  | Assign g k => Assign g (bind k f)
  | Await c k => Await c (fun r => bind (k r) f)
  | AwaitAll c1 c2 k => AwaitAll c1 c2 (fun r => bind (k r) f)
  end.

(** [try { m } catch (e) { h e }] *)
Fixpoint try_catch {A} (m : Async A) (h : Thrown -> Async A) : Async A :=
  match m with
  | Ret (Fulfilled a) => Ret (Fulfilled a)
  | Ret (Rejected e) => h e
  | Read k => Read (fun s => try_catch (k s) h)
  | Assign g k => Assign g (try_catch k h)
  | Await c k => Await c (fun r => try_catch (k r) h)
  | AwaitAll c1 c2 k => AwaitAll c1 c2 (fun r => try_catch (k r) h)
  end.

Declare Scope async_scope.
Delimit Scope async_scope with async.
Notation "x <- m ;; k" := (bind m (fun x => k))
  (at level 61, m at next level, right associativity) : async_scope.
Notation "m ;; k" := (bind m (fun _ => k))
  (at level 61, right associativity) : async_scope.
Open Scope async_scope.

(** ** The outside world

    The answers of the collaborators are an oracle: for the [n]-th
    suspension of a run, how each request issued there settles and, when
    both requests of a [Promise.all] reject, which rejection came first. *)
Inductive Side := FirstCall | SecondCall.

Record World := {
  respond : forall R : Type, Call R -> nat -> Settled R;
  earlier : nat -> Side;
}.

(** How [Promise.all([p1, p2])] settles from the way the two promises do. *)
Definition all_settled {A B} (first : Side) (ra : Settled A) (rb : Settled B)
  : Settled (A * B) :=
  match ra, rb with
  | Fulfilled a, Fulfilled b => Fulfilled (a, b)
  | Rejected e, Fulfilled _ => Rejected e
  | Fulfilled _, Rejected e => Rejected e
  | Rejected ea, Rejected eb =>
      match first with FirstCall => Rejected ea | SecondCall => Rejected eb end
  end.

(** While a computation is suspended the event loop may run other handlers;
    [Interference] is what they do to the globals, one entry per suspension
    (none left: nothing else runs). *)
Definition Interference := list (State -> State).

Record Outcome (A : Type) := {
  final : State;
  result : Settled A;
  calls : list (list Issued);
}.

(** Runs [m] from the globals [s]; [log] holds the requests issued so far,
    one batch per suspension. *)
Fixpoint run {A} (w : World) (others : Interference) (m : Async A) (s : State)
    (log : list (list Issued)) : Outcome A :=
  match m with
  | Ret r => {| final := s; result := r; calls := log |}
  | Read k => run w others (k s) s log
  | Assign f k => run w others k (f s) log
  | Await c k =>
      let n := List.length log in
      run w (tl others) (k (respond w c n)) (hd (fun s => s) others s)
        (log ++ [[Issue c]])%list
  | AwaitAll c1 c2 k =>
      let n := List.length log in
      run w (tl others)
        (k (all_settled (earlier w n) (respond w c1 n) (respond w c2 n)))
        (hd (fun s => s) others s)
        (log ++ [[Issue c1; Issue c2]])%list
  end.

(** A handler run on its own, from a click to its last line. *)
Definition handle {A} (w : World) (m : Async A) (s : State) : Outcome A :=
  run w [] m s [].

(** ** The script *)

(** The message of the [TypeError] raised by reading a property of [null]
    (the wording is V8's). *)
Definition TypeError_null (property : string) : Thrown :=
  let m := "Cannot read properties of null (reading '" ++ property ++ "')" in
  {| message := Some m; asString := "TypeError: " ++ m |}.

(** [active.chainId === 84532 ? NETWORKS[0] : NETWORKS[1]], the entry the
    toggle switches to. *)
Definition other (current : Network.t) : Network.t :=
  if Network.chainId current =? 84532 then NETWORKS_0 else NETWORKS_1.

(** [accounts?.[0]] *)
Definition first_account (accounts : option (list string)) : option string :=
  match accounts with
  | Some (a :: _) => Some a
  | _ => None
  end.

(** [!v] for a value that is a string or [undefined]. *)
Definition falsy (v : option string) : bool :=
  match v with
  | None => true
  | Some a => String.eqb a ""
  end.

(** [x?.toString() ?? "n/a"] for an optional bigint. *)
Definition toString_or_na (x : option Z) : string :=
  match x with
  | Some v => bigint_toString v
  | None => "n/a"
  end.

Definition render (lines : list string) : Async unit :=
  assign (set_out_textContent (join newline lines)).

(** [createPublicClient({ chain: n.chain, transport: http(n.rpc) })] *)
Definition client_on (n : Network.t) : Client.t :=
  {| Client.chain := Network.chain n; Client.transport := Network.rpc n |}.

(** [sdk.makeWeb3Provider(n.rpc, n.chainId)] *)
Definition provider_on (n : Network.t) : Provider.t :=
  {| Provider.jsonRpcUrl := Network.rpc n; Provider.chainId := Network.chainId n |}.

Definition client : Async Client.t :=
  s <- read ;;
  ret (client_on (active s)).

Definition makeWeb3Provider : Async Provider.t :=
  s <- read ;;
  ret (provider_on (active s)).

Definition connectWallet : Async Session.t :=
  provider <- makeWeb3Provider ;;
  accounts <- await (eth_requestAccounts provider) ;;
  let address := first_account accounts in
  match address with
  | Some a =>
      if falsy address then throw (Error "No address returned from wallet")
      else
        chainIdHex <- await (eth_chainId provider) ;;
        ret {| Session.address := a; Session.chainId := parseInt chainIdHex 16 |}
  | None => throw (Error "No address returned from wallet")
  end.

Definition readSummary (address : string) : Async Summary :=
  c <- client ;;
  r <- Promise_all (getBlockNumber c) (getBalance c address) ;;
  ret {| block := fst r; balance := snd r |}.

Definition readPulse : Async Pulse :=
  c <- client ;;
  r <- Promise_all (getBlock c) (estimateFeesPerGas c) ;;
  let (block, fees) := r in
  ret {| p_number := number block;
         p_timestamp := timestamp block;
         p_gasUsed := gasUsed block;
         p_maxFeePerGas := maxFeePerGas fees;
         p_maxPriorityFeePerGas := maxPriorityFeePerGas fees |}.

(** [btnToggle.onclick]: synchronous, no suspension. *)
Definition btnToggle_onclick (s : State) : State :=
  let s := set_active (other (active s)) s in
  let s := set_session None s in
  let s := set_btnPulse_disabled true s in
  let s := set_btnAddr_disabled true s in
  set_out_textContent
    (join newline
       ["Network switched to " ++ Network.label (active s) ++ ". Reconnect wallet."])
    s.

(** [catch (e: any) { render([`Error: ${e?.message ?? String(e)}`]) }] *)
Definition on_error (e : Thrown) : Async unit :=
  render ["Error: " ++ describe e].

Section Script.

(** [isAddress] and [formatEther] of viem: the address validator and the
    unit formatter, used as given. *)
Variable isAddress : string -> bool.
Variable formatEther : Z -> string.

Definition readBalance (addr : string) : Async Z :=
  if negb (isAddress addr) then throw (Error "Invalid address")
  else
    c <- client ;;
    await (getBalance c addr).

(** The [try] block of [btnConnect.onclick]. *)
Definition btnConnect_try : Async unit :=
  render ["Connecting wallet…"] ;;
  connected <- connectWallet ;;
  assign (set_session (Some connected)) ;;
  s <- read ;;
  match session s with
  | None => throw (TypeError_null "address")
  | Some ss =>
      info <- readSummary (Session.address ss) ;;
      assign (set_btnPulse_disabled false) ;;
      assign (set_btnAddr_disabled false) ;;
      s <- read ;;
      match session s with
      | None => throw (TypeError_null "chainId")
      | Some ss =>
          render
            ["Connected";
             "Network: " ++ Network.label (active s);
             "chainId: " ++ Number_toString (Session.chainId ss);
             "Address: " ++ Session.address ss;
             "ETH balance: " ++ formatEther (balance info) ++ " ETH";
             "Latest block: " ++ bigint_toString (block info);
             "Explorer: " ++ Network.explorer (active s) ++ "/address/"
               ++ Session.address ss]
      end
  end.

Definition btnConnect_onclick : Async unit :=
  try_catch btnConnect_try on_error.

Definition btnPulse_try : Async unit :=
  render ["Scanning horizon…"] ;;
  p <- readPulse ;;
  s <- read ;;
  render
    ["Horizon Pulse (read-only)";
     "Network: " ++ Network.label (active s);
     "Block: " ++ bigint_toString (p_number p);
     "Timestamp: " ++ bigint_toString (p_timestamp p);
     "Gas used: " ++ bigint_toString (p_gasUsed p);
     "maxFeePerGas: " ++ toString_or_na (p_maxFeePerGas p);
     "maxPriorityFeePerGas: " ++ toString_or_na (p_maxPriorityFeePerGas p);
     "Explorer: " ++ Network.explorer (active s) ++ "/block/"
       ++ bigint_toString (p_number p)].

Definition btnPulse_onclick : Async unit :=
  try_catch btnPulse_try on_error.

(** [addrInput.value || session?.address] *)
Definition target_of (s : State) : option string :=
  if negb (String.eqb (addrInput_value s) "") then Some (addrInput_value s)
  else option_map Session.address (session s).

(** The rest of the [try] block of [btnAddr.onclick], once [target] is
    known to be a non-empty string. *)
Definition check_balance_of (target : string) : Async unit :=
  render ["Reading balance…"] ;;
  bal <- readBalance target ;;
  s <- read ;;
  render
    ["Address Balance";
     "Network: " ++ Network.label (active s);
     "Address: " ++ target;
     "ETH balance: " ++ formatEther bal ++ " ETH";
     "Explorer: " ++ Network.explorer (active s) ++ "/address/" ++ target].

Definition btnAddr_try : Async unit :=
  s <- read ;;
  let target := target_of s in
  match target with
  | Some t =>
      if falsy target then throw (Error "No address provided")
      else
        check_balance_of t
  | None => throw (Error "No address provided")
  end.

Definition btnAddr_onclick : Async unit :=
  try_catch btnAddr_try on_error.

(** *** User actions handled one at a time

    Each action is handled to its last line before the next one starts.
    A click on a disabled button does nothing; typing only sets the
    input's value. *)
Inductive Action :=
| ToggleNetwork
| ConnectWallet (w : World)
| HorizonPulse (w : World)
| TypeAddress (v : string)
| CheckBalance (w : World).

Definition perform (s : State) (a : Action) : State :=
  match a with
  | ToggleNetwork => btnToggle_onclick s
  | ConnectWallet w => final (handle w btnConnect_onclick s)
  | HorizonPulse w =>
      if btnPulse_disabled s then s else final (handle w btnPulse_onclick s)
  | TypeAddress v => set_addrInput_value v s
  | CheckBalance w =>
      if btnAddr_disabled s then s else final (handle w btnAddr_onclick s)
  end.

Definition perform_all (s : State) (acts : list Action) : State :=
  fold_left perform acts s.

End Script.

(** ** The error kinds of the design, as the script raises them *)

Definition InvalidAddress : Thrown := Error "Invalid address".
Definition MissingAddress : Thrown := Error "No address provided".

(** A query fails with the rejection of one of the reads it issued. *)
Definition rejection {A} (r : Settled A) : option Thrown :=
  match r with
  | Fulfilled _ => None
  | Rejected e => Some e
  end.

Definition QueryFailure {A} (r : Settled A) (reads : list (option Thrown)) : Prop :=
  exists e, r = Rejected e /\ In (Some e) reads.

(** ** Hexadecimal chain ids, in the words of [parseInt]'s contract

    A string denotes a hexadecimal integer when, after leading white space,
    an optional sign and an optional [0x], it starts with a hexadecimal
    digit. *)
Definition isHexDigit (c : ascii) : bool :=
  let n := Z.of_nat (nat_of_ascii c) in
  ((48 <=? n) && (n <=? 57)) || ((97 <=? n) && (n <=? 102))
  || ((65 <=? n) && (n <=? 70)).

Definition starts_with_hex_digit (s : string) : bool :=
  match s with
  | String c _ => isHexDigit c
  | EmptyString => false
  end.

Definition parseable_hex (h : string) : bool :=
  let s := snd (stripSign (trimStart h)) in
  starts_with_hex_digit (match after0x s with Some rest => rest | None => s end).

(** A hexadecimal chain id as a wallet encodes it: [0x] and the digits,
    most significant first, each given by its value. *)
Definition hex_digit (d : Z) : ascii :=
  ascii_of_nat (Z.to_nat (if d <? 10 then 48 + d else 87 + d)).

Fixpoint hex_string (ds : list Z) : string :=
  match ds with
  | [] => ""
  | d :: rest => String (hex_digit d) (hex_string rest)
  end.

Definition hex_number (ds : list Z) : Z :=
  fold_left (fun a d => a * 16 + d) ds 0.

(** U+00A0, a no-break space. *)
Definition nbsp : string :=
  String (ascii_of_nat 194) (String (ascii_of_nat 160) EmptyString).

(** ** Worlds and collaborators to run the script on *)

(** A world in which every request of a kind settles the same way. *)
Definition world_of (accounts : Settled (option (list string)))
    (chainIdHex : Settled string) (blockNumber : Settled Z) (bal : Settled Z)
    (blk : Settled Block) (fees : Settled Fees) (first : Side) : World :=
  {| respond := fun R (c : Call R) _ =>
       match c in Call T return Settled T with
       | eth_requestAccounts _ => accounts
       | eth_chainId _ => chainIdHex
       | getBlockNumber _ => blockNumber
       | getBalance _ _ => bal
       | getBlock _ => blk
       | estimateFeesPerGas _ => fees
       end;
     earlier := fun _ => first |}.

Fixpoint all_hex (s : string) : bool :=
  match s with
  | EmptyString => true
  | String c rest => isHexDigit c && all_hex rest
  end.

(** A validator in the shape of viem's: [0x] and forty hexadecimal digits
    (the checksum of mixed-case addresses is left out). *)
Definition hex_address (a : string) : bool :=
  match a with
  | String "0" (String "x" body) => Nat.eqb (String.length body) 40 && all_hex body
  | _ => false
  end.

(** A formatter that prints the amount in wei. *)
Definition wei_string (z : Z) : string := bigint_toString z.

Definition alice : string := "0x00000000000000000000000000000000000a11ce".
Definition bob : string := "0x0000000000000000000000000000000000000b0b".

Definition a_block : Block := {| number := 1000; timestamp := 1700000000; gasUsed := 21000 |}.
Definition no_fees : Fees := {| maxFeePerGas := None; maxPriorityFeePerGas := None |}.

(** Everything answers. *)
Definition calm : World :=
  world_of (Fulfilled (Some [alice])) (Fulfilled "0x14a34") (Fulfilled 1000)
    (Fulfilled 2500000000000000000) (Fulfilled a_block) (Fulfilled no_fees) FirstCall.

(** The wallet answers, the node rejects the balance read. *)
Definition node_down : World :=
  world_of (Fulfilled (Some [alice])) (Fulfilled "0x14a34") (Fulfilled 1000)
    (Rejected (Error "HTTP request failed.")) (Fulfilled a_block) (Fulfilled no_fees)
    FirstCall.

(** The user declines the wallet request. *)
Definition declined : World :=
  world_of (Rejected (Error "User denied account authorization"))
    (Fulfilled "0x14a34") (Fulfilled 1000) (Fulfilled 0) (Fulfilled a_block)
    (Fulfilled no_fees) FirstCall.

(** The wallet reports a chain id that is not hexadecimal. *)
Definition odd_wallet : World :=
  world_of (Fulfilled (Some [alice])) (Fulfilled "zz") (Fulfilled 1000)
    (Fulfilled 0) (Fulfilled a_block) (Fulfilled no_fees) FirstCall.

(** The page after a connect in the calm world: alice's session on Base
    Sepolia, both dependent buttons enabled. *)
Definition alice_connected : State :=
  final (handle calm (btnConnect_onclick wei_string) mounted).

(** The wallet pads its chain id with a no-break space. *)
Definition padding_wallet : World :=
  world_of (Fulfilled (Some [alice])) (Fulfilled (nbsp ++ "0x2105")) (Fulfilled 1000)
    (Fulfilled 0) (Fulfilled a_block) (Fulfilled no_fees) FirstCall.

(** The wallet answers with an empty list of accounts. *)
Definition no_account : World :=
  world_of (Fulfilled (Some [])) (Fulfilled "0x14a34") (Fulfilled 1000)
    (Fulfilled 0) (Fulfilled a_block) (Fulfilled no_fees) FirstCall.

(** ** Vocabulary of the further properties *)

(** What [connectWallet] throws when the wallet hands back no usable
    account. *)
Definition NoAddressReturned : Thrown := Error "No address returned from wallet".

(** The URL a request is sent to: the one its provider or client was built
    with. *)
Definition endpoint {R} (c : Call R) : string :=
  match c with
  | eth_requestAccounts p | eth_chainId p => Provider.jsonRpcUrl p
  | getBlockNumber c | getBalance c _ | getBlock c | estimateFeesPerGas c =>
      Client.transport c
  end.


(** Whether a request goes to the wallet rather than to the node. *)
Definition to_wallet (i : Issued) : bool :=
  match i with
  | Issue (eth_requestAccounts _) | Issue (eth_chainId _) => true
  | Issue _ => false
  end.

(** The two dependent buttons go together, and when they are enabled there
    is a session with a non-empty address. *)
Definition buttons_follow_session (s : State) : Prop :=
  btnPulse_disabled s = btnAddr_disabled s
  /\ (btnAddr_disabled s = false ->
      exists ss, session s = Some ss /\ Session.address ss <> "").

(** What [readSummary] and [readPulse] make of the settled [Promise.all]. *)
Definition summary_of (r : Settled (Z * Z)) : Settled Summary :=
  match r with
  | Fulfilled p => Fulfilled {| block := fst p; balance := snd p |}
  | Rejected e => Rejected e
  end.

Definition pulse_of (r : Settled (Block * Fees)) : Settled Pulse :=
  match r with
  | Fulfilled (b, f) =>
      Fulfilled {| p_number := number b; p_timestamp := timestamp b;
                   p_gasUsed := gasUsed b; p_maxFeePerGas := maxFeePerGas f;
                   p_maxPriorityFeePerGas := maxPriorityFeePerGas f |}
  | Rejected e => Rejected e
  end.

Unset Implicit Arguments.

(** * Properties *)

(** ** The registry and the toggle *)

Lemma NETWORKS_cases (n : Network.t) :
  In n NETWORKS -> n = NETWORKS_0 \/ n = NETWORKS_1.
Proof.
  unfold NETWORKS; simpl; intuition.
Qed.

(** C7. [other] is its own inverse on the registry: for each of the two
    entries [n], [other (other n) = n], and [other n] is the entry of the
    registry that is not [n]. *)
Theorem other_involutive (n : Network.t) :
  In n NETWORKS ->
  other (other n) = n /\ other n <> n /\ In (other n) NETWORKS
  /\ (forall m, In m NETWORKS -> m <> n -> m = other n).
Proof.
  intros Hn.
  destruct (NETWORKS_cases n Hn) as [-> | ->]; cbn.
  - repeat split; [discriminate | now right; left | ].
    intros m Hm Hne. destruct (NETWORKS_cases m Hm); congruence.
  - repeat split; [discriminate | now left | ].
    intros m Hm Hne. destruct (NETWORKS_cases m Hm); congruence.
Qed.

Lemma other_involutive_witness :
  In NETWORKS_1 NETWORKS /\ other (other NETWORKS_1) = NETWORKS_1
  /\ other NETWORKS_1 = NETWORKS_0.
Proof.
  assert (H : In NETWORKS_1 NETWORKS) by (right; left; reflexivity).
  split; [exact H | ].
  split; [exact (proj1 (other_involutive NETWORKS_1 H)) | reflexivity].
Defined.

(** ** The query layer *)

(** The interpreter only ever appends to the log of issued requests. *)
Lemma run_calls_extend A (m : Async A) :
  forall w others s log, exists more,
    calls (run w others m s log) = (log ++ more)%list.
Proof.
  induction m as [r | k IH | f k IH | R c k IH | R1 R2 c1 c2 k IH];
    intros w others s log; cbn.
  - exists []. now rewrite app_nil_r.
  - apply IH.
  - apply IH.
  - destruct (IH (respond w c (List.length log)) w (tl others)
                (hd (fun s => s) others s) (log ++ [[Issue c]])%list) as [more E].
    exists ([Issue c] :: more). now rewrite E, <- app_assoc.
  - destruct (IH (all_settled (earlier w (List.length log))
                    (respond w c1 (List.length log)) (respond w c2 (List.length log)))
                w (tl others) (hd (fun s => s) others s)
                (log ++ [[Issue c1; Issue c2]])%list) as [more E].
    exists ([Issue c1; Issue c2] :: more). now rewrite E, <- app_assoc.
Qed.

Lemma run_readSummary w others address s log :
  let c := client_on (active s) in
  let n := List.length log in
  run w others (readSummary address) s log =
  {| final := hd (fun s => s) others s;
     result := summary_of (all_settled (earlier w n) (respond w (getBlockNumber c) n)
                             (respond w (getBalance c address) n));
     calls := (log ++ [[Issue (getBlockNumber c); Issue (getBalance c address)]])%list |}.
Proof.
  cbn.
  destruct (all_settled _ _ _) as [[b a] | e]; reflexivity.
Qed.

Lemma run_readPulse w others s log :
  let c := client_on (active s) in
  let n := List.length log in
  run w others readPulse s log =
  {| final := hd (fun s => s) others s;
     result := pulse_of (all_settled (earlier w n) (respond w (getBlock c) n)
                           (respond w (estimateFeesPerGas c) n));
     calls := (log ++ [[Issue (getBlock c); Issue (estimateFeesPerGas c)]])%list |}.
Proof.
  cbn.
  destruct (all_settled _ _ _) as [[b f] | e]; reflexivity.
Qed.

Lemma all_settled_rejected A B first (ra : Settled A) (rb : Settled B) :
  rejection ra <> None \/ rejection rb <> None ->
  exists e, all_settled first ra rb = Rejected e
            /\ In (Some e) [rejection ra; rejection rb].
Proof.
  destruct ra as [a | ea], rb as [b | eb], first; cbn; intros [H | H];
    try congruence; eauto.
Qed.

Lemma all_settled_fulfilled A B first (ra : Settled A) (rb : Settled B) v :
  all_settled first ra rb = Fulfilled v ->
  ra = Fulfilled (fst v) /\ rb = Fulfilled (snd v).
Proof.
  destruct ra as [a | ea], rb as [b | eb], first; cbn; intros H;
    try discriminate; injection H as <-; split; reflexivity.
Qed.

(** C3. [readSummary] and [readPulse] each issue exactly two reads, both
    before suspending, and fail as a unit: when either read rejects the
    operation rejects with the rejection of one of its reads (a query
    failure), and whenever it returns a value both reads were fulfilled and
    the value is made of exactly their two results. *)
Theorem reads_fail_as_a_unit (w : World) (others : Interference) (s : State)
    (log : list (list Issued)) (address : string) :
  let c := client_on (active s) in
  let n := List.length log in
  let summary := run w others (readSummary address) s log in
  let pulse := run w others readPulse s log in
  (calls summary = (log ++ [[Issue (getBlockNumber c); Issue (getBalance c address)]])%list
   /\ (rejection (respond w (getBlockNumber c) n) <> None
       \/ rejection (respond w (getBalance c address) n) <> None ->
       QueryFailure (result summary)
         [rejection (respond w (getBlockNumber c) n);
          rejection (respond w (getBalance c address) n)])
   /\ (forall v, result summary = Fulfilled v ->
       respond w (getBlockNumber c) n = Fulfilled (block v)
       /\ respond w (getBalance c address) n = Fulfilled (balance v)))
  /\
  (calls pulse = (log ++ [[Issue (getBlock c); Issue (estimateFeesPerGas c)]])%list
   /\ (rejection (respond w (getBlock c) n) <> None
       \/ rejection (respond w (estimateFeesPerGas c) n) <> None ->
       QueryFailure (result pulse)
         [rejection (respond w (getBlock c) n);
          rejection (respond w (estimateFeesPerGas c) n)])
   /\ (forall v, result pulse = Fulfilled v ->
       exists b f,
         respond w (getBlock c) n = Fulfilled b
         /\ respond w (estimateFeesPerGas c) n = Fulfilled f
         /\ v = {| p_number := number b; p_timestamp := timestamp b;
                   p_gasUsed := gasUsed b; p_maxFeePerGas := maxFeePerGas f;
                   p_maxPriorityFeePerGas := maxPriorityFeePerGas f |})).
Proof.
  intros c n summary pulse.
  subst summary pulse.
  rewrite run_readSummary, run_readPulse.
  fold c n. cbn [calls result].
  split; (split; [reflexivity | split]).
  - intros H.
    destruct (all_settled_rejected _ _ (earlier w n) _ _ H) as (e & E & Hin).
    exists e. rewrite E. split; [reflexivity | exact Hin].
  - intros v Hv.
    destruct (all_settled _ _ _) as [p | e] eqn:E; [ | discriminate].
    apply all_settled_fulfilled in E. cbn in Hv. injection Hv as <-. exact E.
  - intros H.
    destruct (all_settled_rejected _ _ (earlier w n) _ _ H) as (e & E & Hin).
    exists e. rewrite E. split; [reflexivity | exact Hin].
  - intros v Hv.
    destruct (all_settled _ _ _) as [[b f] | e] eqn:E; [ | discriminate].
    apply all_settled_fulfilled in E. cbn in Hv. injection Hv as <-.
    exists b, f. cbn in E. tauto.
Qed.

Lemma reads_fail_as_a_unit_witness :
  calls (handle node_down (readSummary alice) mounted)
  = [[Issue (getBlockNumber (client_on NETWORKS_1));
      Issue (getBalance (client_on NETWORKS_1) alice)]]
  /\ QueryFailure (result (handle node_down (readSummary alice) mounted))
       [None; Some (Error "HTTP request failed.")].
Proof.
  pose proof (reads_fail_as_a_unit node_down [] mounted [] alice) as H.
  cbv zeta in H. destruct H as [(Hcalls & Hfail & _) _].
  split; [exact Hcalls | ].
  apply Hfail. right. cbn. discriminate.
Defined.

(** C4. [readSummary] (and likewise [readPulse]) reads the globals once,
    when it is called; both reads are issued on one client, the one built
    from the chain and the RPC URL of the network that was active then, so
    both go to that network's endpoint; and what the call returns is
    settled by those two reads alone: whatever other handlers do to the
    globals while the call is suspended (a toggle, say) changes neither the
    requests nor the result. *)
Theorem reads_target_the_network_at_call_start (w : World) (others : Interference)
    (s : State) (log : list (list Issued)) (address : string) :
  let built_from (n : Network.t) :=
    {| Client.chain := Network.chain n; Client.transport := Network.rpc n |} in
  let c := built_from (active s) in
  (exists k,
      readSummary address
      = Read (fun s0 =>
                AwaitAll (getBlockNumber (built_from (active s0)))
                  (getBalance (built_from (active s0)) address) k)
      /\ forall r, k r = Ret (summary_of r))
  /\ (exists k,
      readPulse
      = Read (fun s0 =>
                AwaitAll (getBlock (built_from (active s0)))
                  (estimateFeesPerGas (built_from (active s0))) k)
      /\ forall r, k r = Ret (pulse_of r))
  /\ calls (run w others (readSummary address) s log)
     = (log ++ [[Issue (getBlockNumber c); Issue (getBalance c address)]])%list
  /\ calls (run w others readPulse s log)
     = (log ++ [[Issue (getBlock c); Issue (estimateFeesPerGas c)]])%list
  /\ (endpoint (getBlockNumber c) = Network.rpc (active s)
      /\ endpoint (getBalance c address) = Network.rpc (active s)
      /\ endpoint (getBlock c) = Network.rpc (active s)
      /\ endpoint (estimateFeesPerGas c) = Network.rpc (active s))
  /\ result (run w others (readSummary address) s log)
     = result (run w [] (readSummary address) s log)
  /\ result (run w others readPulse s log) = result (run w [] readPulse s log)
  /\ active (final (run w [btnToggle_onclick] (readSummary address) s log))
     = other (active s)
  /\ active (final (run w [btnToggle_onclick] readPulse s log)) = other (active s).
Proof.
  intros built_from c.
  split; [ | split].
  - eexists. split; [reflexivity | ].
    intros [p | e]; reflexivity.
  - eexists. split; [reflexivity | ].
    intros [[b f] | e]; reflexivity.
  - rewrite !run_readSummary, !run_readPulse. cbn. repeat split.
Qed.

(** C5. [readBalance] validates before it calls: on an address the
    validator refuses it throws [InvalidAddress] without issuing any
    request; on an address the validator accepts it issues exactly one
    read, for that address, on the client built from the chain and the RPC
    URL of the active network, and settles as that read does. *)
Theorem readBalance_validates_before_calling (isAddress : string -> bool)
    (w : World) (others : Interference) (s : State) (log : list (list Issued))
    (addr : string) :
  let o := run w others (readBalance isAddress addr) s log in
  let c :=
    {| Client.chain := Network.chain (active s);
       Client.transport := Network.rpc (active s) |} in
  (isAddress addr = false ->
   result o = Rejected InvalidAddress /\ calls o = log /\ final o = s)
  /\ (isAddress addr = true ->
      calls o = (log ++ [[Issue (getBalance c addr)]])%list
      /\ endpoint (getBalance c addr) = Network.rpc (active s)
      /\ result o = respond w (getBalance c addr) (List.length log)).
Proof.
  intros o c. subst o c. unfold readBalance.
  split; intros ->; cbn.
  - repeat split.
  - destruct (respond w _ _); cbn; repeat split.
Qed.

Lemma readBalance_validates_before_calling_witness :
  (result (handle calm (readBalance hex_address "0x12") mounted)
   = Rejected InvalidAddress
   /\ calls (handle calm (readBalance hex_address "0x12") mounted) = [])
  /\ calls (handle calm (readBalance hex_address alice) mounted)
     = [[Issue (getBalance
                 {| Client.chain := baseSepolia;
                    Client.transport := "https://sepolia.base.org" |} alice)]].
Proof.
  split.
  - destruct (readBalance_validates_before_calling hex_address calm [] mounted []
                "0x12") as [H _].
    destruct (H eq_refl) as (Hr & Hc & _). split; [exact Hr | exact Hc].
  - destruct (readBalance_validates_before_calling hex_address calm [] mounted []
                alice) as [_ H].
    exact (proj1 (H eq_refl)).
Defined.

(** ** The interpreter and sequencing *)

Lemma skipn_suspended {X} (others : list X) (L l : nat) :
  (l < L)%nat ->
  skipn (L - S l) (tl others) = skipn (L - l) others.
Proof.
  intros H. replace (L - l)%nat with (S (L - S l)) by lia.
  destruct others; cbn; [now rewrite skipn_nil | reflexivity].
Qed.

Lemma run_calls_length A (m : Async A) w others s log :
  (List.length log <= List.length (calls (run w others m s log)))%nat.
Proof.
  destruct (run_calls_extend A m w others s log) as [more ->].
  rewrite length_app. lia.
Qed.

(** The step shared by the two suspending cases below: after the induction
    hypothesis has been used on the continuation [m], the handlers left to
    interfere are the same whether counted from the log before or after the
    batch just issued. *)
Ltac resume_after m batch :=
  cbv zeta;
  match goal with
  | |- context [run ?w (tl ?others) m ?s' (?log ++ [batch])%list] =>
      let o := fresh "o" in
      let H := fresh "H" in
      pose proof (run_calls_length _ m w (tl others) s' (log ++ [batch])%list) as H;
      set (o := run w (tl others) m s' (log ++ [batch])%list) in *;
      rewrite length_app in *; cbn [List.length] in *;
      rewrite Nat.add_1_r in *;
      rewrite skipn_suspended by lia;
      reflexivity
  end.

(** Running [x <- m ;; f x]: run [m]; if it throws, so does the whole; if
    it returns, run [f] from where [m] stopped. *)
Lemma run_bind A B (m : Async A) (f : A -> Async B) :
  forall w others s log,
    run w others (bind m f) s log =
    let o := run w others m s log in
    match result o with
    | Fulfilled a =>
        run w (skipn (List.length (calls o) - List.length log) others) (f a)
          (final o) (calls o)
    | Rejected e => {| final := final o; result := Rejected e; calls := calls o |}
    end.
Proof.
  induction m as [r | k IH | g k IH | R c k IH | R1 R2 c1 c2 k IH];
    intros w others s log; cbn.
  - destruct r; cbn; [now rewrite Nat.sub_diag | reflexivity].
  - apply IH.
  - apply IH.
  - rewrite IH.
    resume_after (k (respond w c (List.length log))) [Issue c].
  - rewrite IH.
    resume_after (k (all_settled (earlier w (List.length log))
                       (respond w c1 (List.length log))
                       (respond w c2 (List.length log))))
                 [Issue c1; Issue c2].
Qed.

(** Running [try { m } catch (e) { h e }]. *)
Lemma run_try_catch A (m : Async A) (h : Thrown -> Async A) :
  forall w others s log,
    run w others (try_catch m h) s log =
    let o := run w others m s log in
    match result o with
    | Fulfilled a => {| final := final o; result := Fulfilled a; calls := calls o |}
    | Rejected e =>
        run w (skipn (List.length (calls o) - List.length log) others) (h e)
          (final o) (calls o)
    end.
Proof.
  induction m as [r | k IH | g k IH | R c k IH | R1 R2 c1 c2 k IH];
    intros w others s log; cbn.
  - destruct r; cbn; [reflexivity | now rewrite Nat.sub_diag].
  - apply IH.
  - apply IH.
  - rewrite IH.
    resume_after (k (respond w c (List.length log))) [Issue c].
  - rewrite IH.
    resume_after (k (all_settled (earlier w (List.length log))
                       (respond w c1 (List.length log))
                       (respond w c2 (List.length log))))
                 [Issue c1; Issue c2].
Qed.

(** A handler that catches never throws, and renders the error line when
    its [try] block throws. *)
Lemma handle_try_catch_on_error (m : Async unit) w s :
  handle w (try_catch m on_error) s =
  match result (handle w m s) with
  | Fulfilled a =>
      {| final := final (handle w m s); result := Fulfilled a;
         calls := calls (handle w m s) |}
  | Rejected e =>
      {| final := set_out_textContent ("Error: " ++ describe e) (final (handle w m s));
         result := Fulfilled tt;
         calls := calls (handle w m s) |}
  end.
Proof.
  unfold handle. rewrite run_try_catch. cbv zeta.
  destruct (result (run w [] m s [])); reflexivity.
Qed.

(** ** Connecting *)

(** [connectWallet] assigns nothing. *)
Lemma connectWallet_final w s log :
  final (run w [] connectWallet s log) = s.
Proof.
  cbn.
  destruct (respond w (eth_requestAccounts _) _) as [accounts | e]; cbn; [ | reflexivity].
  destruct (first_account accounts) as [a | ]; cbn; [ | reflexivity].
  destruct (String.eqb a ""); cbn; [reflexivity | ].
  destruct (respond w (eth_chainId _) _); reflexivity.
Qed.

(** What it returns depends on the globals through [active] only. *)
Lemma connectWallet_result w s s' :
  active s = active s' ->
  result (run w [] connectWallet s []) = result (run w [] connectWallet s' []).
Proof.
  intros E. cbn. rewrite E.
  destruct (respond w (eth_requestAccounts _) _) as [accounts | e]; cbn; [ | reflexivity].
  destruct (first_account accounts) as [a | ]; cbn; [ | reflexivity].
  destruct (String.eqb a ""); cbn; [reflexivity | ].
  destruct (respond w (eth_chainId _) _); reflexivity.
Qed.

Lemma handle_btnConnect_try formatEther w s :
  handle w (btnConnect_try formatEther) s =
  let s0 := set_out_textContent "Connecting wallet…" s in
  let wallet := run w [] connectWallet s0 [] in
  match result wallet with
  | Rejected e => {| final := s0; result := Rejected e; calls := calls wallet |}
  | Fulfilled connected =>
      let s1 := set_session (Some connected) s0 in
      let summary := run w [] (readSummary (Session.address connected)) s1 (calls wallet) in
      match result summary with
      | Rejected e => {| final := s1; result := Rejected e; calls := calls summary |}
      | Fulfilled info =>
          {| final :=
               set_out_textContent
                 (join newline
                    ["Connected";
                     "Network: " ++ Network.label (active s);
                     "chainId: " ++ Number_toString (Session.chainId connected);
                     "Address: " ++ Session.address connected;
                     "ETH balance: " ++ formatEther (balance info) ++ " ETH";
                     "Latest block: " ++ bigint_toString (block info);
                     "Explorer: " ++ Network.explorer (active s) ++ "/address/"
                       ++ Session.address connected])
                 (set_btnAddr_disabled false (set_btnPulse_disabled false s1));
             result := Fulfilled tt;
             calls := calls summary |}
      end
  end.
Proof.
  unfold handle, btnConnect_try.
  rewrite run_bind. cbn [run render assign ret final result calls]. cbv zeta.
  change (join newline ["Connecting wallet…"]) with "Connecting wallet…".
  cbn [skipn List.length Nat.sub].
  rewrite run_bind. cbv zeta. rewrite connectWallet_final.
  rewrite skipn_nil.
  destruct (result (run w [] connectWallet _ [])) as [connected | e]; [ | reflexivity].
  rewrite run_bind. cbn [run assign ret final result calls]. cbv zeta.
  rewrite skipn_nil.
  rewrite run_bind. cbn [run read ret final result calls session set_session]. cbv zeta.
  rewrite skipn_nil.
  rewrite run_bind. cbv zeta. rewrite skipn_nil.
  rewrite !run_readSummary. cbn [final result calls hd].
  destruct (summary_of _) as [info | e]; [ | reflexivity].
  reflexivity.
Qed.

(** After the connect handler, whether its [try] block threw or not:
    [active] is as before, and [session] is what the wallet returned if it
    returned anything, and as before otherwise. *)
Lemma connect_session formatEther w s :
  let after := final (handle w (btnConnect_onclick formatEther) s) in
  active after = active s
  /\ session after
     = match result (handle w connectWallet s) with
       | Fulfilled connected => Some connected
       | Rejected _ => session s
       end.
Proof.
  cbv zeta. unfold btnConnect_onclick.
  rewrite handle_try_catch_on_error, handle_btnConnect_try. cbv zeta.
  unfold handle.
  rewrite (connectWallet_result w s (set_out_textContent "Connecting wallet…" s))
    by reflexivity.
  destruct (result (run w [] connectWallet _ [])) as [connected | e].
  - destruct (result (run w [] (readSummary _) _ _)); cbn; split; reflexivity.
  - cbn. split; reflexivity.
Qed.

(** A failing connect handled on its own: the error line, [active] and the
    buttons as they were, the session as the wallet request left it. *)
Lemma failed_connect_alone (formatEther : Z -> string) (w : World) (s : State)
    (e : Thrown) :
  result (handle w (btnConnect_try formatEther) s) = Rejected e ->
  let after := final (handle w (btnConnect_onclick formatEther) s) in
  out_textContent after = "Error: " ++ describe e
  /\ active after = active s
  /\ btnPulse_disabled after = btnPulse_disabled s
  /\ btnAddr_disabled after = btnAddr_disabled s
  /\ match result (handle w connectWallet s) with
     | Rejected _ => session after = session s
     | Fulfilled connected => session after = Some connected
     end.
Proof.
  intros Hfail after.
  destruct (connect_session formatEther w s) as [Hactive Hsession].
  fold after in Hactive, Hsession.
  assert (Hrest : out_textContent after = "Error: " ++ describe e
                  /\ btnPulse_disabled after = btnPulse_disabled s
                  /\ btnAddr_disabled after = btnAddr_disabled s).
  { subst after. unfold btnConnect_onclick.
    rewrite handle_try_catch_on_error, Hfail.
    rewrite handle_btnConnect_try in Hfail |- *. cbv zeta in Hfail |- *.
    destruct (result (run w [] connectWallet _ [])) as [connected | e1].
    - destruct (result (run w [] (readSummary _) _ _)) as [info | e2];
        [discriminate | ].
      cbn. repeat split.
    - cbn. repeat split. }
  destruct Hrest as (Hout & Hpulse & Haddr).
  repeat split; try assumption.
  rewrite Hsession. destruct (result (handle w connectWallet s)); reflexivity.
Qed.


(** A failing connect, with whatever runs while it is suspended: where the
    handler stood when its [try] block threw, and what it had written
    itself by then. *)
Lemma failed_connect_interleaved (formatEther : Z -> string) (w : World)
    (others : Interference) (s : State) (e : Thrown) :
  result (run w others (btnConnect_try formatEther) s []) = Rejected e ->
  let quiet := fun s : State => s in
  let after := final (run w others (btnConnect_onclick formatEther) s []) in
  let failed_from (page : State) :=
    after = set_out_textContent ("Error: " ++ describe e) page in
  let s0 := set_out_textContent "Connecting wallet…" s in
  let s1 := hd quiet others s0 in
  let s2 := hd quiet (tl others) s1 in
  match result (run w others connectWallet s0 []) with
  | Rejected _ => failed_from s1 \/ failed_from s2
  | Fulfilled connected =>
      let stored := set_session (Some connected) s2 in
      let resumed := hd quiet (tl (tl others)) stored in
      let c := client_on (active stored) in
      match summary_of (all_settled (earlier w 2%nat)
                          (respond w (getBlockNumber c) 2%nat)
                          (respond w (getBalance c (Session.address connected)) 2%nat)) with
      | Rejected _ => failed_from resumed
      | Fulfilled _ =>
          session resumed = None
          /\ e = TypeError_null "chainId"
          /\ failed_from
               (set_btnAddr_disabled false (set_btnPulse_disabled false resumed))
      end
  end.
Proof.
  intros Hfail quiet after failed_from s0 s1 s2.
  subst after failed_from s2 s1 s0 quiet. cbv beta zeta.
  unfold btnConnect_onclick.
  rewrite run_try_catch. cbv zeta. rewrite Hfail.
  revert Hfail. unfold btnConnect_try.
  cbn -[other parseInt Number_toString bigint_toString String.append
        TypeError_null describe client_on all_settled].
  destruct (respond w (eth_requestAccounts _) _) as [accounts | e1];
    cbn -[other parseInt Number_toString bigint_toString String.append
          TypeError_null describe client_on all_settled].
  2: { intros H. injection H as <-. left. reflexivity. }
  destruct (first_account accounts) as [a | ];
    cbn -[other parseInt Number_toString bigint_toString String.append
          TypeError_null describe client_on all_settled].
  2: { intros H. injection H as <-. left. reflexivity. }
  destruct (String.eqb a "");
    cbn -[other parseInt Number_toString bigint_toString String.append
          TypeError_null describe client_on all_settled].
  { intros H. injection H as <-. left. reflexivity. }
  destruct (respond w (eth_chainId _) _) as [h | e1];
    cbn -[other parseInt Number_toString bigint_toString String.append
          TypeError_null describe client_on all_settled].
  2: { intros H. injection H as <-. right. reflexivity. }
  destruct (all_settled _ _ _) as [[blockNumber bal] | e1];
    cbn -[other parseInt Number_toString bigint_toString String.append
          TypeError_null describe client_on all_settled].
  2: { intros H. injection H as <-. reflexivity. }
  destruct (session _) as [ss | ] eqn:Hsession;
    cbn -[other parseInt Number_toString bigint_toString String.append
          TypeError_null describe client_on all_settled].
  { discriminate. }
  intros H. injection H as <-. repeat split.
Qed.

(** C1 (as amended). A connect action that fails renders the error line,
    and the handler itself has written, besides the output:
    - nothing, when the failure is in the wallet request (the accounts
      request rejects, no address comes back, or the chain id request
      rejects): the session is unchanged by it;
    - the session the wallet returned, stored before the summary read,
      when the wallet request succeeded and the summary read fails;
    - that session and both dependent buttons, enabled, when the summary
      read is fulfilled but another handler has cleared the session
      meanwhile: the handler then fails reading the cleared session.
    It never assigns [active].  With nothing else running while it is
    suspended, [active] and both buttons are therefore as they were, and
    the session is the wallet's when the wallet request succeeded and as it
    was otherwise. *)
Theorem failed_connect_session (formatEther : Z -> string) (w : World)
    (others : Interference) (s : State) (e : Thrown) :
  result (run w others (btnConnect_try formatEther) s []) = Rejected e ->
  let quiet := fun s : State => s in
  let after := final (run w others (btnConnect_onclick formatEther) s []) in
  let failed_from (page : State) :=
    after = set_out_textContent ("Error: " ++ describe e) page in
  let s0 := set_out_textContent "Connecting wallet…" s in
  let s1 := hd quiet others s0 in
  let s2 := hd quiet (tl others) s1 in
  out_textContent after = "Error: " ++ describe e
  /\ match result (run w others connectWallet s0 []) with
     | Rejected _ => failed_from s1 \/ failed_from s2
     | Fulfilled connected =>
         let stored := set_session (Some connected) s2 in
         let resumed := hd quiet (tl (tl others)) stored in
         let c := client_on (active stored) in
         match summary_of (all_settled (earlier w 2%nat)
                             (respond w (getBlockNumber c) 2%nat)
                             (respond w (getBalance c (Session.address connected))
                                2%nat)) with
         | Rejected _ => failed_from resumed
         | Fulfilled _ =>
             session resumed = None
             /\ e = TypeError_null "chainId"
             /\ failed_from
                  (set_btnAddr_disabled false (set_btnPulse_disabled false resumed))
         end
     end
  /\ (others = [] ->
      active after = active s
      /\ btnPulse_disabled after = btnPulse_disabled s
      /\ btnAddr_disabled after = btnAddr_disabled s
      /\ match result (handle w connectWallet s) with
         | Rejected _ => session after = session s
         | Fulfilled connected => session after = Some connected
         end).
Proof.
  intros Hfail quiet after failed_from s0 s1 s2.
  split; [ | split].
  - subst after. unfold btnConnect_onclick.
    rewrite run_try_catch. cbv zeta. rewrite Hfail. reflexivity.
  - exact (failed_connect_interleaved formatEther w others s e Hfail).
  - intros ->.
    destruct (failed_connect_alone formatEther w s e Hfail)
      as (_ & Hactive & Hpulse & Haddr & Hsession).
    repeat split; assumption.
Qed.

Lemma failed_connect_session_witness :
  result (handle declined (btnConnect_try wei_string) mounted)
  = Rejected (Error "User denied account authorization")
  /\ out_textContent (final (handle declined (btnConnect_onclick wei_string) mounted))
     = "Error: User denied account authorization"
  /\ session (final (handle declined (btnConnect_onclick wei_string) mounted)) = None.
Proof.
  assert (H : result (run declined [] (btnConnect_try wei_string) mounted [])
              = Rejected (Error "User denied account authorization"))
    by reflexivity.
  split; [exact H | ].
  destruct (failed_connect_session wei_string declined [] mounted _ H)
    as (Hout & _ & Halone).
  destruct (Halone eq_refl) as (_ & _ & _ & Hsession).
  split; [exact Hout | exact Hsession].
Defined.

(** C1 as first stated does not hold: with a wallet that answers and a node
    that rejects the balance read, the connect action fails (the error line
    is rendered, the buttons stay disabled) and yet the session, absent
    before the click, is present after it. *)
Lemma failed_summary_read_keeps_new_session :
  let after := final (handle node_down (btnConnect_onclick wei_string) mounted) in
  result (handle node_down (btnConnect_try wei_string) mounted)
  = Rejected (Error "HTTP request failed.")
  /\ out_textContent after = "Error: HTTP request failed."
  /\ btnPulse_disabled after = true
  /\ session mounted = None
  /\ session after
     = Some {| Session.address := alice; Session.chainId := Int 84532 |}
  /\ session after <> session mounted.
Proof.
  cbv zeta. repeat split. discriminate.
Qed.

(** ** Pulse and balance *)

(** The pulse handler, with whatever runs while it is suspended: it issues
    its two reads on the client of the network active at the click, and
    only writes the output. *)
Lemma run_btnPulse_onclick w others s :
  let s1 := hd (fun s => s) others (set_out_textContent "Scanning horizon…" s) in
  let c := client_on (active s) in
  run w others btnPulse_onclick s [] =
  {| final :=
       set_out_textContent
         (match pulse_of (all_settled (earlier w 0%nat) (respond w (getBlock c) 0%nat)
                            (respond w (estimateFeesPerGas c) 0%nat)) with
          | Fulfilled p =>
              join newline
                ["Horizon Pulse (read-only)";
                 "Network: " ++ Network.label (active s1);
                 "Block: " ++ bigint_toString (p_number p);
                 "Timestamp: " ++ bigint_toString (p_timestamp p);
                 "Gas used: " ++ bigint_toString (p_gasUsed p);
                 "maxFeePerGas: " ++ toString_or_na (p_maxFeePerGas p);
                 "maxPriorityFeePerGas: " ++ toString_or_na (p_maxPriorityFeePerGas p);
                 "Explorer: " ++ Network.explorer (active s1) ++ "/block/"
                   ++ bigint_toString (p_number p)]
          | Rejected e => "Error: " ++ describe e
          end) s1;
     result := Fulfilled tt;
     calls := [[Issue (getBlock c); Issue (estimateFeesPerGas c)]] |}.
Proof.
  cbv zeta. unfold btnPulse_onclick, btnPulse_try.
  rewrite run_try_catch, run_bind. cbn [run render assign ret final result calls].
  cbv zeta. rewrite run_bind. cbv zeta. rewrite run_readPulse.
  cbn [final result calls hd active set_out_textContent List.length app].
  destruct (pulse_of _) as [p | e]; reflexivity.
Qed.



Lemma run_check_balance_of isAddress formatEther w s t :
  let s0 := set_out_textContent "Reading balance…" s in
  let c := client_on (active s) in
  handle w (check_balance_of isAddress formatEther t) s =
  if isAddress t then
    match respond w (getBalance c t) 0%nat with
    | Fulfilled bal =>
        {| final :=
             set_out_textContent
               (join newline
                  ["Address Balance";
                   "Network: " ++ Network.label (active s);
                   "Address: " ++ t;
                   "ETH balance: " ++ formatEther bal ++ " ETH";
                   "Explorer: " ++ Network.explorer (active s) ++ "/address/" ++ t])
               s0;
           result := Fulfilled tt;
           calls := [[Issue (getBalance c t)]] |}
    | Rejected e =>
        {| final := s0; result := Rejected e; calls := [[Issue (getBalance c t)]] |}
    end
  else {| final := s0; result := Rejected InvalidAddress; calls := [] |}.
Proof.
  cbv zeta. unfold handle, check_balance_of, readBalance.
  destruct (isAddress t); cbn; [ | reflexivity].
  destruct (respond w _ _); reflexivity.
Qed.

Lemma handle_btnAddr_try isAddress formatEther w s :
  handle w (btnAddr_try isAddress formatEther) s =
  match target_of s with
  | Some t =>
      if String.eqb t ""
      then {| final := s; result := Rejected MissingAddress; calls := [] |}
      else handle w (check_balance_of isAddress formatEther t) s
  | None => {| final := s; result := Rejected MissingAddress; calls := [] |}
  end.
Proof.
  unfold handle, btnAddr_try.
  cbn [run bind read ret].
  destruct (target_of s) as [t | ]; [ | reflexivity].
  cbn [falsy]. destruct (String.eqb t ""); reflexivity.
Qed.

Lemma target_of_input s :
  addrInput_value s <> "" -> target_of s = Some (addrInput_value s).
Proof.
  intros H. unfold target_of.
  destruct (String.eqb_spec (addrInput_value s) ""); [contradiction | reflexivity].
Qed.

Lemma target_of_session s :
  addrInput_value s = "" -> target_of s = option_map Session.address (session s).
Proof.
  intros H. unfold target_of. now rewrite H.
Qed.

(** With a non-empty target, the action is the balance check of that
    target. *)
Lemma btnAddr_try_uses isAddress formatEther w s t :
  t <> "" -> target_of s = Some t ->
  handle w (btnAddr_try isAddress formatEther) s
  = handle w (check_balance_of isAddress formatEther t) s
  /\ calls (handle w (btnAddr_try isAddress formatEther) s)
     = (if isAddress t then [[Issue (getBalance (client_on (active s)) t)]] else [])
  /\ result (handle w (btnAddr_try isAddress formatEther) s)
     = (if isAddress t
        then match respond w (getBalance (client_on (active s)) t) 0%nat with
             | Fulfilled _ => Fulfilled tt
             | Rejected e => Rejected e
             end
        else Rejected InvalidAddress).
Proof.
  intros Ht Htarget.
  rewrite handle_btnAddr_try, Htarget.
  destruct (String.eqb_spec t ""); [contradiction | ].
  split; [reflexivity | ].
  rewrite run_check_balance_of. cbv zeta.
  destruct (isAddress t); [ | split; reflexivity].
  destruct (respond w _ _); split; reflexivity.
Qed.

(** C6. The check-balance action takes the input's value when one is
    provided, the session's address otherwise, and fails with
    [MissingAddress], without issuing any request, when there is neither
    an input nor a session. *)
Theorem check_balance_target (isAddress : string -> bool) (formatEther : Z -> string)
    (w : World) (s : State) :
  let attempt := handle w (btnAddr_try isAddress formatEther) s in
  let uses t :=
    attempt = handle w (check_balance_of isAddress formatEther t) s
    /\ calls attempt
       = (if isAddress t then [[Issue (getBalance (client_on (active s)) t)]] else [])
    /\ result attempt
       = (if isAddress t
          then match respond w (getBalance (client_on (active s)) t) 0%nat with
               | Fulfilled _ => Fulfilled tt
               | Rejected e => Rejected e
               end
          else Rejected InvalidAddress) in
  (addrInput_value s <> "" -> uses (addrInput_value s))
  /\ (forall ss, addrInput_value s = "" -> session s = Some ss ->
      Session.address ss <> "" -> uses (Session.address ss))
  /\ (addrInput_value s = "" -> session s = None ->
      result attempt = Rejected MissingAddress
      /\ calls attempt = []
      /\ final (handle w (btnAddr_onclick isAddress formatEther) s)
         = set_out_textContent "Error: No address provided" s).
Proof.
  cbv zeta. split; [ | split].
  - intros Hinput.
    apply btnAddr_try_uses; [exact Hinput | now apply target_of_input].
  - intros ss Hinput Hsession Haddress.
    apply btnAddr_try_uses; [exact Haddress | ].
    rewrite target_of_session, Hsession by exact Hinput. reflexivity.
  - intros Hinput Hsession.
    unfold btnAddr_onclick.
    rewrite handle_try_catch_on_error, handle_btnAddr_try.
    rewrite target_of_session, Hsession by exact Hinput.
    cbn. repeat split.
Qed.

Lemma check_balance_target_witness :
  calls (handle calm (btnAddr_try hex_address wei_string)
           (set_addrInput_value bob alice_connected))
  = [[Issue (getBalance (client_on NETWORKS_1) bob)]]
  /\ calls (handle calm (btnAddr_try hex_address wei_string) alice_connected)
     = [[Issue (getBalance (client_on NETWORKS_1) alice)]]
  /\ result (handle calm (btnAddr_try hex_address wei_string) mounted)
     = Rejected MissingAddress.
Proof.
  split; [ | split].
  - destruct (check_balance_target hex_address wei_string calm
                (set_addrInput_value bob alice_connected)) as (H & _ & _).
    assert (Hinput : addrInput_value (set_addrInput_value bob alice_connected) <> "")
      by discriminate.
    exact (proj1 (proj2 (H Hinput))).
  - destruct (check_balance_target hex_address wei_string calm alice_connected)
      as (_ & H & _).
    assert (Haddress : alice <> "") by discriminate.
    exact (proj1 (proj2 (H _ eq_refl eq_refl Haddress))).
  - destruct (check_balance_target hex_address wei_string calm mounted)
      as (_ & _ & H).
    exact (proj1 (H eq_refl eq_refl)).
Defined.

(** C9. In the check-balance action an address is provided when the input
    is a non-empty string.  A non-empty input the validator refuses is
    used all the same: the action fails with [InvalidAddress], issues no
    request and reads nothing for the session's address, whatever the
    session is (a session with a valid address included).  An empty input
    is not provided: with a session, the action is the balance check of
    the session's address, and no error is raised about the input. *)
Theorem invalid_input_never_falls_back (isAddress : string -> bool)
    (formatEther : Z -> string) (w : World) (s : State) :
  let attempt := handle w (btnAddr_try isAddress formatEther) s in
  let after := final (handle w (btnAddr_onclick isAddress formatEther) s) in
  (addrInput_value s <> "" -> isAddress (addrInput_value s) = false ->
   result attempt = Rejected InvalidAddress
   /\ calls attempt = []
   /\ out_textContent after = "Error: Invalid address"
   /\ session after = session s)
  /\ (forall ss, addrInput_value s = "" -> session s = Some ss ->
      Session.address ss <> "" ->
      target_of s = Some (Session.address ss)
      /\ attempt = handle w (check_balance_of isAddress formatEther (Session.address ss)) s
      /\ calls attempt
         = (if isAddress (Session.address ss)
            then [[Issue (getBalance (client_on (active s)) (Session.address ss))]]
            else [])).
Proof.
  cbv zeta. split.
  - intros Hinput Hinvalid.
    destruct (btnAddr_try_uses isAddress formatEther w s (addrInput_value s) Hinput
                (target_of_input s Hinput)) as (Hsame & Hcalls & Hresult).
    rewrite Hinvalid in Hcalls, Hresult.
    unfold btnAddr_onclick.
    rewrite handle_try_catch_on_error, Hresult, Hsame, run_check_balance_of.
    cbv zeta. rewrite Hinvalid.
    rewrite <- Hcalls at 2. rewrite Hsame, run_check_balance_of. cbv zeta.
    rewrite Hinvalid. cbn. repeat split.
  - intros ss Hinput Hsession Haddress.
    assert (Htarget : target_of s = Some (Session.address ss))
      by (rewrite target_of_session, Hsession by exact Hinput; reflexivity).
    split; [exact Htarget | ].
    destruct (btnAddr_try_uses isAddress formatEther w s _ Haddress Htarget)
      as (Hsame & Hcalls & _).
    split; assumption.
Qed.

Lemma invalid_input_never_falls_back_witness :
  hex_address alice = true
  /\ session (set_addrInput_value "0x12" alice_connected)
     = Some {| Session.address := alice; Session.chainId := Int 84532 |}
  /\ result (handle calm (btnAddr_try hex_address wei_string)
               (set_addrInput_value "0x12" alice_connected))
     = Rejected InvalidAddress
  /\ calls (handle calm (btnAddr_try hex_address wei_string)
              (set_addrInput_value "0x12" alice_connected)) = []
  /\ calls (handle calm (btnAddr_try hex_address wei_string) alice_connected)
     = [[Issue (getBalance (client_on NETWORKS_1) alice)]].
Proof.
  split; [reflexivity | split; [reflexivity | ]].
  destruct (invalid_input_never_falls_back hex_address wei_string calm
              (set_addrInput_value "0x12" alice_connected)) as [H _].
  assert (Hinput : addrInput_value (set_addrInput_value "0x12" alice_connected) <> "")
    by discriminate.
  destruct (H Hinput eq_refl) as (Hresult & Hcalls & _).
  split; [exact Hresult | split; [exact Hcalls | ]].
  destruct (invalid_input_never_falls_back hex_address wei_string calm alice_connected)
    as [_ H'].
  assert (Haddress : alice <> "") by discriminate.
  exact (proj2 (proj2 (H' _ eq_refl eq_refl Haddress))).
Defined.

(** ** The chain id the wallet reports *)

(** Once a digit has been read, [digits] always yields a number. *)
Lemma digits_started R s : forall a, exists m, digits R (Some a) s = Some m.
Proof.
  induction s as [ | c rest IH]; intros a; cbn.
  - now exists a.
  - destruct (digitValue c) as [d | ]; [ | now exists a].
    destruct (d <? R); [apply IH | now exists a].
Qed.

Lemma isHexDigit_digitValue c :
  isHexDigit c = match digitValue c with Some d => d <? 16 | None => false end.
Proof.
  destruct c as [[] [] [] [] [] [] [] []]; reflexivity.
Qed.

(** [digits 16] finds nothing exactly when the string does not start with a
    hexadecimal digit. *)
Lemma digits_16_none s :
  digits 16 None s = None <-> starts_with_hex_digit s = false.
Proof.
  destruct s as [ | c rest]; cbn; [tauto | ].
  rewrite isHexDigit_digitValue.
  destruct (digitValue c) as [d | ]; [ | tauto].
  destruct (d <? 16); [ | tauto].
  destruct (digits_started 16 rest d) as [m ->].
  split; discriminate.
Qed.

(** [parseInt(h, 16)] is [NaN] exactly on the strings that do not denote a
    hexadecimal integer. *)
Lemma parseInt_16_NaN h : parseInt h 16 = NaN <-> parseable_hex h = false.
Proof.
  unfold parseInt, parseable_hex.
  destruct (stripSign (trimStart h)) as [sign s]. cbn [snd].
  change (negb (16 =? 0) && ((16 <? 2) || (36 <? 16))) with false.
  change ((16 =? 0) || (16 =? 16)) with true.
  change (if 16 =? 0 then 10 else 16) with 16.
  cbv iota zeta.
  rewrite <- digits_16_none.
  destruct (after0x s) as [rest | ].
  - destruct (digits 16 None rest); split; congruence.
  - destruct (digits 16 None s); split; congruence.
Qed.

(** The digit a wallet writes for a value is read back as that value. *)
Lemma digitValue_hex_digit d : 0 <= d < 16 -> digitValue (hex_digit d) = Some d.
Proof.
  intros H.
  assert (Hd : d = 0 \/ d = 1 \/ d = 2 \/ d = 3 \/ d = 4 \/ d = 5 \/ d = 6 \/ d = 7
               \/ d = 8 \/ d = 9 \/ d = 10 \/ d = 11 \/ d = 12 \/ d = 13 \/ d = 14
               \/ d = 15) by lia.
  repeat (destruct Hd as [-> | Hd]; [reflexivity | ]). subst d. reflexivity.
Qed.

Lemma digits_hex_string ds :
  Forall (fun d => 0 <= d < 16) ds ->
  forall a,
    digits 16 (Some a) (hex_string ds)
    = Some (fold_left (fun a d => a * 16 + d) ds a).
Proof.
  induction 1 as [ | d ds Hd _ IH]; intros a; cbn [hex_string digits fold_left].
  - reflexivity.
  - rewrite (digitValue_hex_digit d Hd).
    replace (d <? 16) with true by (symmetry; apply Z.ltb_lt; lia).
    apply IH.
Qed.

(** A hexadecimal literal starts with no white space. *)
Lemma trimStart_0x r :
  trimStart (String "0" (String "x" r)) = String "0" (String "x" r).
Proof. destruct r; reflexivity. Qed.

(** [parseInt(h, 16)] of a hexadecimal chain id is the number it encodes. *)
Lemma parseInt_hex_string ds :
  ds <> [] -> Forall (fun d => 0 <= d < 16) ds ->
  parseInt ("0x" ++ hex_string ds) 16 = Int (hex_number ds).
Proof.
  intros Hne Hds.
  destruct ds as [ | d ds]; [contradiction | ].
  inversion Hds as [ | d' ds' Hd Hrest]; subst.
  unfold parseInt.
  change ("0x" ++ hex_string (d :: ds))
    with (String "0" (String "x" (hex_string (d :: ds)))).
  rewrite trimStart_0x.
  change (stripSign (String "0" (String "x" (hex_string (d :: ds)))))
    with (1, String "0" (String "x" (hex_string (d :: ds)))).
  change (negb (16 =? 0) && ((16 <? 2) || (36 <? 16))) with false.
  change ((16 =? 0) || (16 =? 16)) with true.
  change (if 16 =? 0 then 10 else 16) with 16.
  cbv iota zeta.
  change (after0x (String "0" (String "x" (hex_string (d :: ds)))))
    with (Some (hex_string (d :: ds))).
  cbv iota. cbn [hex_string digits].
  rewrite (digitValue_hex_digit d Hd).
  replace (d <? 16) with true by (symmetry; apply Z.ltb_lt; lia).
  rewrite (digits_hex_string ds Hrest).
  unfold hex_number. cbn [fold_left]. rewrite Z.mul_1_l. reflexivity.
Qed.

(** A string that starts with a letter from [g] to [z] has no number. *)
Lemma parseInt_letter c rest :
  (103 <= nat_of_ascii c <= 122)%nat -> parseInt (String c rest) 16 = NaN.
Proof.
  intros H.
  destruct rest as [ | c2 [ | c3 r3]];
    destruct c as [[] [] [] [] [] [] [] []]; cbn in H; try lia; reflexivity.
Qed.

(** C10. [connectWallet] takes the chain id as [parseInt(chainIdHex, 16)]
    and checks nothing about it: whenever the wallet returns a non-empty
    first account and answers the chain id request with any string at all,
    [connectWallet] returns that account with the parsed chain id, and the
    connect handler stores it as the session.  For a hexadecimal chain id
    ([0x] and digits) the stored number is the one the digits encode; when
    the string does not denote a hexadecimal integer (no hexadecimal digit
    after the white space, sign and [0x] that [parseInt] skips; a string
    that starts with a letter from [g] to [z], say) the stored chain id is
    [NaN]. *)
Theorem connectWallet_keeps_unparsed_chainId (formatEther : Z -> string) (w : World)
    (s : State) (a : string) (more : list string) (chainIdHex : string) :
  let provider := provider_on (active s) in
  respond w (eth_requestAccounts provider) 0%nat = Fulfilled (Some (a :: more)) ->
  a <> "" ->
  respond w (eth_chainId provider) 1%nat = Fulfilled chainIdHex ->
  let connected :=
    {| Session.address := a; Session.chainId := parseInt chainIdHex 16 |} in
  result (handle w connectWallet s) = Fulfilled connected
  /\ session (final (handle w (btnConnect_onclick formatEther) s)) = Some connected
  /\ (parseable_hex chainIdHex = false -> Session.chainId connected = NaN)
  /\ (forall c rest,
        chainIdHex = String c rest -> (103 <= nat_of_ascii c <= 122)%nat ->
        Session.chainId connected = NaN)
  /\ (forall ds,
        ds <> [] -> Forall (fun d => 0 <= d < 16) ds ->
        chainIdHex = "0x" ++ hex_string ds ->
        Session.chainId connected = Int (hex_number ds)).
Proof.
  intros provider Haccounts Ha Hchain connected.
  assert (Hwallet : result (handle w connectWallet s) = Fulfilled connected).
  { unfold handle. cbn. fold provider. rewrite Haccounts. cbn.
    destruct (String.eqb_spec a ""); [contradiction | ].
    cbn. rewrite Hchain. reflexivity. }
  split; [exact Hwallet | split; [ | split; [ | split]]].
  - destruct (connect_session formatEther w s) as [_ Hsession].
    rewrite Hsession, Hwallet. reflexivity.
  - intros Hjunk. cbn. now apply parseInt_16_NaN.
  - intros c rest -> Hc. cbn [connected Session.chainId].
    now apply parseInt_letter.
  - intros ds Hne Hds ->. cbn [connected Session.chainId].
    now apply parseInt_hex_string.
Qed.

Lemma connectWallet_keeps_unparsed_chainId_witness :
  parseable_hex "zz" = false
  /\ result (handle odd_wallet connectWallet mounted)
     = Fulfilled {| Session.address := alice; Session.chainId := NaN |}
  /\ session (final (handle odd_wallet (btnConnect_onclick wei_string) mounted))
     = Some {| Session.address := alice; Session.chainId := NaN |}
  /\ session (final (handle padding_wallet (btnConnect_onclick wei_string) mounted))
     = Some {| Session.address := alice; Session.chainId := Int 8453 |}.
Proof.
  assert (Ha : alice <> "") by discriminate.
  destruct (connectWallet_keeps_unparsed_chainId wei_string odd_wallet mounted
              alice [] "zz" eq_refl Ha eq_refl) as (Hresult & Hsession & _).
  destruct (connectWallet_keeps_unparsed_chainId wei_string padding_wallet mounted
              alice [] (nbsp ++ "0x2105") eq_refl Ha eq_refl) as (_ & Hpadded & _).
  split; [reflexivity | ].
  split; [exact Hresult | split; [exact Hsession | exact Hpadded]].
Defined.

Example parseInt_sepolia : parseInt "0x14a34" 16 = Int 84532.
Proof. reflexivity. Qed.

Example parseInt_junk : parseInt "zz" 16 = NaN.
Proof. reflexivity. Qed.

Example parseInt_after_no_break_space : parseInt (nbsp ++ "ff") 16 = Int 255.
Proof. reflexivity. Qed.

Example Number_toString_rounds :
  Number_toString (parseInt "0xffffffffffffffffff" 16) = "4.722366482869645e+21"
  /\ Number_toString (Int (2 ^ 60)) = "1152921504606847000"
  /\ Number_toString (Int (2 ^ 53 + 1)) = "9007199254740992".
Proof. repeat split; vm_compute; reflexivity. Qed.

(** ** Toggling, and actions handled one at a time *)

Lemma toggle_resets s :
  session (btnToggle_onclick s) = None
  /\ active (btnToggle_onclick s) = other (active s)
  /\ btnPulse_disabled (btnToggle_onclick s) = true
  /\ btnAddr_disabled (btnToggle_onclick s) = true.
Proof. repeat split. Qed.

(** Pulse, typing and balance checks leave [active] and [session] alone. *)
Lemma perform_keeps_connection isAddress formatEther s a :
  match a with
  | ToggleNetwork | ConnectWallet _ => True
  | _ =>
      active (perform isAddress formatEther s a) = active s
      /\ session (perform isAddress formatEther s a) = session s
  end.
Proof.
  destruct a as [ | w | w | v | w]; cbn [perform]; try exact I.
  - destruct (btnPulse_disabled s); [split; reflexivity | ].
    unfold handle. rewrite run_btnPulse_onclick. split; reflexivity.
  - split; reflexivity.
  - destruct (btnAddr_disabled s); [split; reflexivity | ].
    unfold btnAddr_onclick.
    rewrite handle_try_catch_on_error, handle_btnAddr_try.
    destruct (target_of s) as [t | ]; [ | split; reflexivity].
    destruct (String.eqb t ""); [split; reflexivity | ].
    rewrite run_check_balance_of. cbv zeta.
    destruct (isAddress t); [ | split; reflexivity].
    destruct (respond w _ _); split; reflexivity.
Qed.

Lemma perform_all_snoc isAddress formatEther s acts a :
  perform_all isAddress formatEther s (acts ++ [a])
  = perform isAddress formatEther (perform_all isAddress formatEther s acts) a.
Proof.
  unfold perform_all. now rewrite fold_left_app.
Qed.

(** With actions handled one at a time from a page without a session, a
    session that is present was returned by a wallet request made while the
    network now active was active, and no toggle has run since. *)
Lemma session_made_under_active isAddress formatEther s0 :
  session s0 = None ->
  forall acts ss,
    session (perform_all isAddress formatEther s0 acts) = Some ss ->
    exists pre w post,
      acts = (pre ++ ConnectWallet w :: post)%list
      /\ ~ In ToggleNetwork post
      /\ result (handle w connectWallet (perform_all isAddress formatEther s0 pre))
         = Fulfilled ss
      /\ active (perform_all isAddress formatEther s0 pre)
         = active (perform_all isAddress formatEther s0 acts).
Proof.
  intros Hnone acts.
  induction acts as [ | a acts IH] using rev_ind; intros ss Hss.
  - cbn in Hss. congruence.
  - rewrite perform_all_snoc in Hss |- *.
    set (st := perform_all isAddress formatEther s0 acts) in *.
    assert (Hkeep : forall ss,
               active (perform isAddress formatEther st a) = active st ->
               session st = Some ss -> a <> ToggleNetwork ->
               exists pre w post,
                 (acts ++ [a] = pre ++ ConnectWallet w :: post)%list
                 /\ ~ In ToggleNetwork post
                 /\ result (handle w connectWallet
                              (perform_all isAddress formatEther s0 pre))
                    = Fulfilled ss
                 /\ active (perform_all isAddress formatEther s0 pre)
                    = active (perform isAddress formatEther st a)).
    { intros ss' Hactive Hsession Ha.
      destruct (IH ss' Hsession) as (pre & w & post & -> & Hpost & Hres & Hact).
      exists pre, w, (post ++ [a])%list.
      split; [now rewrite <- app_assoc | ].
      split; [ | split; [exact Hres | congruence]].
      intros Hin. apply in_app_or in Hin. destruct Hin as [Hin | [Hin | []]];
        [now apply Hpost | now apply Ha]. }
    pose proof (perform_keeps_connection isAddress formatEther st a) as Hother.
    destruct a as [ | w | w | v | w].
    + cbn in Hss. discriminate.
    + cbn [perform] in Hss |- *.
      destruct (connect_session formatEther w st) as [Hactive Hsession].
      rewrite Hsession in Hss.
      destruct (result (handle w connectWallet st)) as [connected | e] eqn:Hwallet.
      * injection Hss as <-.
        exists acts, w, []. repeat split; [now intros [] | exact Hwallet | now symmetry].
      * apply (Hkeep ss Hactive Hss). discriminate.
    + destruct Hother as [Hactive Hsession].
      apply (Hkeep ss Hactive); [congruence | discriminate].
    + destruct Hother as [Hactive Hsession].
      apply (Hkeep ss Hactive); [congruence | discriminate].
    + destruct Hother as [Hactive Hsession].
      apply (Hkeep ss Hactive); [congruence | discriminate].
Qed.

(** When the [try] block of the connect handler completes, the wallet
    request had returned a session. *)
Lemma connect_success_has_session formatEther w s :
  result (handle w (btnConnect_try formatEther) s) = Fulfilled tt ->
  exists connected, result (handle w connectWallet s) = Fulfilled connected.
Proof.
  rewrite handle_btnConnect_try. cbv zeta. unfold handle.
  rewrite (connectWallet_result w s (set_out_textContent "Connecting wallet…" s))
    by reflexivity.
  destruct (result (run w [] connectWallet _ [])) as [connected | e];
    [eauto | discriminate].
Qed.

(** C2 (as amended). In every state with a session, the toggle leaves no
    session and makes the other registry entry active; in particular a
    connect that has completed successfully, followed by a toggle, leaves
    no session.  So, as long as each action is handled to its end before
    the next one starts, a session that is present was returned by a wallet
    request made while the network now active was active, with no toggle
    since. *)
Theorem toggle_invalidates_session (isAddress : string -> bool)
    (formatEther : Z -> string) :
  (forall s, session s <> None ->
     session (btnToggle_onclick s) = None
     /\ active (btnToggle_onclick s) = other (active s))
  /\ (forall w s,
        result (handle w (btnConnect_try formatEther) s) = Fulfilled tt ->
        let connected := final (handle w (btnConnect_onclick formatEther) s) in
        session connected <> None
        /\ session (btnToggle_onclick connected) = None
        /\ active (btnToggle_onclick connected) = other (active s))
  /\ (forall s0 acts ss,
        session s0 = None ->
        session (perform_all isAddress formatEther s0 acts) = Some ss ->
        exists pre w post,
          acts = (pre ++ ConnectWallet w :: post)%list
          /\ ~ In ToggleNetwork post
          /\ result (handle w connectWallet (perform_all isAddress formatEther s0 pre))
             = Fulfilled ss
          /\ active (perform_all isAddress formatEther s0 pre)
             = active (perform_all isAddress formatEther s0 acts)).
Proof.
  split; [ | split].
  - intros s _. split; reflexivity.
  - intros w s Hok connected.
    destruct (connect_success_has_session formatEther w s Hok) as [c Hc].
    destruct (connect_session formatEther w s) as [Hactive Hsession].
    fold connected in Hactive, Hsession. rewrite Hc in Hsession.
    split; [congruence | ].
    split; [reflexivity | ].
    cbn. now rewrite Hactive.
  - intros s0 acts ss Hnone Hss.
    exact (session_made_under_active isAddress formatEther s0 Hnone acts ss Hss).
Qed.

Lemma toggle_invalidates_session_witness :
  session alice_connected <> None
  /\ session (btnToggle_onclick alice_connected) = None
  /\ active (btnToggle_onclick alice_connected) = NETWORKS_0.
Proof.
  destruct (toggle_invalidates_session hex_address wei_string) as (Htoggle & _ & _).
  assert (H : session alice_connected <> None) by discriminate.
  split; [exact H | exact (Htoggle alice_connected H)].
Defined.

(** C2 as first stated does not hold: a toggle that runs while the connect
    handler is waiting for the wallet comes before the session is stored.
    The wallet requests went to a provider built for Base Sepolia; when the
    handler ends, the active network is Base Mainnet, the session is
    present, and the page shows both. *)
Lemma toggle_during_connect_keeps_session :
  let o := run calm [btnToggle_onclick] (btnConnect_onclick wei_string) mounted [] in
  calls o
  = [[Issue (eth_requestAccounts (provider_on NETWORKS_1))];
     [Issue (eth_chainId (provider_on NETWORKS_1))];
     [Issue (getBlockNumber (client_on NETWORKS_0));
      Issue (getBalance (client_on NETWORKS_0) alice)]]
  /\ active (final o) = NETWORKS_0
  /\ session (final o)
     = Some {| Session.address := alice; Session.chainId := Int 84532 |}
  /\ out_textContent (final o)
     = join newline
         ["Connected";
          "Network: Base Mainnet";
          "chainId: 84532";
          "Address: " ++ alice;
          "ETH balance: 2500000000000000000 ETH";
          "Latest block: 1000";
          "Explorer: https://basescan.org/address/" ++ alice].
Proof.
  cbv zeta. repeat split.
Qed.

(** * Further properties of the script *)

(** ** [connectWallet] *)

(** [connectWallet], with whatever runs while it is suspended. *)
Lemma run_connectWallet w others s log :
  let p := provider_on (active s) in
  let n := List.length log in
  let s1 := hd (fun s => s) others s in
  let s2 := hd (fun s => s) (tl others) s1 in
  run w others connectWallet s log =
  match respond w (eth_requestAccounts p) n with
  | Rejected e =>
      {| final := s1; result := Rejected e;
         calls := (log ++ [[Issue (eth_requestAccounts p)]])%list |}
  | Fulfilled accounts =>
      if falsy (first_account accounts) then
        {| final := s1; result := Rejected NoAddressReturned;
           calls := (log ++ [[Issue (eth_requestAccounts p)]])%list |}
      else
        {| final := s2;
           result :=
             match respond w (eth_chainId p) (S n) with
             | Fulfilled chainIdHex =>
                 Fulfilled
                   {| Session.address :=
                        match first_account accounts with Some a => a | None => "" end;
                      Session.chainId := parseInt chainIdHex 16 |}
             | Rejected e => Rejected e
             end;
           calls :=
             (log ++ [[Issue (eth_requestAccounts p)]; [Issue (eth_chainId p)]])%list |}
  end.
Proof.
  cbn.
  destruct (respond w (eth_requestAccounts _) _) as [accounts | e]; cbn; [ | reflexivity].
  destruct (first_account accounts) as [a | ]; cbn; [ | reflexivity].
  destruct (String.eqb a ""); cbn; [reflexivity | ].
  rewrite length_app. cbn [List.length]. rewrite Nat.add_1_r.
  rewrite <- app_assoc. cbn [app].
  destruct (respond w (eth_chainId _) _); reflexivity.
Qed.

(** X2. How [connectWallet] fails.  When the accounts request rejects, or
    is fulfilled with no usable first account ([null], an empty list, or an
    empty string in first place), [connectWallet] throws (the rejection, or
    [NoAddressReturned]) having issued the accounts request only: the chain
    id is never asked for.  When the chain id request rejects, it throws
    that rejection.  This holds whatever else runs meanwhile. *)
Theorem connectWallet_failure_modes (w : World) (others : Interference) (s : State)
    (log : list (list Issued)) :
  let p := provider_on (active s) in
  let n := List.length log in
  let o := run w others connectWallet s log in
  (forall e,
      respond w (eth_requestAccounts p) n = Rejected e ->
      result o = Rejected e
      /\ calls o = (log ++ [[Issue (eth_requestAccounts p)]])%list)
  /\ (forall accounts,
      respond w (eth_requestAccounts p) n = Fulfilled accounts ->
      accounts = None \/ accounts = Some []
      \/ (exists more, accounts = Some ("" :: more)) ->
      result o = Rejected NoAddressReturned
      /\ calls o = (log ++ [[Issue (eth_requestAccounts p)]])%list)
  /\ (forall a more e,
      respond w (eth_requestAccounts p) n = Fulfilled (Some (a :: more)) ->
      a <> "" ->
      respond w (eth_chainId p) (S n) = Rejected e ->
      result o = Rejected e
      /\ calls o
         = (log ++ [[Issue (eth_requestAccounts p)]; [Issue (eth_chainId p)]])%list).
Proof.
  intros p n o. subst o. rewrite run_connectWallet. fold p n. cbv zeta.
  split; [ | split].
  - intros e ->. split; reflexivity.
  - intros accounts -> Hnone.
    assert (Hfalsy : falsy (first_account accounts) = true)
      by (destruct Hnone as [-> | [-> | [more ->]]]; reflexivity).
    rewrite Hfalsy. split; reflexivity.
  - intros a more e -> Ha ->. cbn [first_account falsy].
    destruct (String.eqb_spec a ""); [contradiction | ].
    split; reflexivity.
Qed.

Lemma connectWallet_failure_modes_witness :
  result (handle no_account connectWallet mounted) = Rejected NoAddressReturned
  /\ calls (handle no_account connectWallet mounted)
     = [[Issue (eth_requestAccounts (provider_on NETWORKS_1))]].
Proof.
  destruct (connectWallet_failure_modes no_account [] mounted []) as (_ & H & _).
  apply (H (Some [])); [reflexivity | right; left; reflexivity].
Defined.

(** X3. What [connectWallet] returns.  Whenever it returns a session, the
    address is the first account the wallet answered with and is not empty,
    the chain id is [parseInt] of the wallet's answer, exactly two requests
    were issued, one after the other, both on the provider built for the
    network that was active when [connectWallet] was called, and
    [connectWallet] itself has assigned nothing: the globals are what the
    other handlers made of them. *)
Theorem connectWallet_returns_well_formed (w : World) (others : Interference)
    (s : State) (log : list (list Issued)) (connected : Session.t) :
  let p := provider_on (active s) in
  let n := List.length log in
  let o := run w others connectWallet s log in
  result o = Fulfilled connected ->
  Session.address connected <> ""
  /\ (exists more chainIdHex,
        respond w (eth_requestAccounts p) n
        = Fulfilled (Some (Session.address connected :: more))
        /\ respond w (eth_chainId p) (S n) = Fulfilled chainIdHex
        /\ Session.chainId connected = parseInt chainIdHex 16)
  /\ calls o = (log ++ [[Issue (eth_requestAccounts p)]; [Issue (eth_chainId p)]])%list
  /\ final o = hd (fun s => s) (tl others) (hd (fun s => s) others s).
Proof.
  intros p n o. subst o. rewrite run_connectWallet. fold p n. cbv zeta.
  destruct (respond w (eth_requestAccounts p) n) as [accounts | e];
    [ | discriminate].
  destruct accounts as [[ | a more] | ]; cbn [first_account falsy];
    try discriminate.
  destruct (String.eqb_spec a ""); [discriminate | ].
  cbn [result calls final].
  destruct (respond w (eth_chainId p) (S n)) as [chainIdHex | e]; [ | discriminate].
  intros H. injection H as <-. cbn.
  split; [assumption | ].
  split; [exists more, chainIdHex; repeat split | split; reflexivity].
Qed.

Lemma connectWallet_returns_well_formed_witness :
  calls (run calm [btnToggle_onclick] connectWallet mounted [])
  = [[Issue (eth_requestAccounts (provider_on NETWORKS_1))];
     [Issue (eth_chainId (provider_on NETWORKS_1))]]
  /\ final (run calm [btnToggle_onclick] connectWallet mounted [])
     = btnToggle_onclick mounted.
Proof.
  destruct (connectWallet_returns_well_formed calm [btnToggle_onclick] mounted []
              {| Session.address := alice; Session.chainId := Int 84532 |} eq_refl)
    as (_ & _ & Hcalls & Hfinal).
  split; [exact Hcalls | exact Hfinal].
Defined.

(** ** The handlers as a whole *)



(** X6. A toggle while the summary read is in flight.  The wallet has
    answered and the session is stored; the toggle then clears the session
    and disables the buttons; when the reads are fulfilled the handler
    enables both buttons and, building the summary, reads [session.chainId]
    of [null].  The page ends with the other network active, no session,
    both dependent buttons enabled, and the error line of that [TypeError]
    (worded as V8 words it). *)
Theorem toggle_during_summary_read (formatEther : Z -> string) (w : World) (s : State)
    (a : string) (more : list string) (chainIdHex : string) (blockNumber bal : Z) :
  let p := provider_on (active s) in
  let c := client_on (active s) in
  respond w (eth_requestAccounts p) 0%nat = Fulfilled (Some (a :: more)) ->
  a <> "" ->
  respond w (eth_chainId p) 1%nat = Fulfilled chainIdHex ->
  respond w (getBlockNumber c) 2%nat = Fulfilled blockNumber ->
  respond w (getBalance c a) 2%nat = Fulfilled bal ->
  let quiet := fun s : State => s in
  run w [quiet; quiet; btnToggle_onclick] (btnConnect_onclick formatEther) s [] =
  {| final :=
       {| active := other (active s);
          session := None;
          btnPulse_disabled := false;
          btnAddr_disabled := false;
          addrInput_value := addrInput_value s;
          out_textContent := "Error: " ++ describe (TypeError_null "chainId") |};
     result := Fulfilled tt;
     calls :=
       [[Issue (eth_requestAccounts p)];
        [Issue (eth_chainId p)];
        [Issue (getBlockNumber c); Issue (getBalance c a)]] |}.
Proof.
  intros p c Haccounts Ha Hchain Hblock Hbal quiet.
  unfold btnConnect_onclick, btnConnect_try, quiet.
  cbn -[other parseInt join Number_toString bigint_toString String.append
        TypeError_null describe].
  fold p. rewrite Haccounts.
  cbn -[other parseInt join Number_toString bigint_toString String.append
        TypeError_null describe].
  destruct (String.eqb_spec a ""); [contradiction | ].
  cbn -[other parseInt join Number_toString bigint_toString String.append
        TypeError_null describe].
  rewrite Hchain.
  cbn -[other parseInt join Number_toString bigint_toString String.append
        TypeError_null describe].
  fold c. rewrite Hblock, Hbal.
  reflexivity.
Qed.

Lemma toggle_during_summary_read_witness :
  let after :=
    final (run calm [fun s => s; fun s => s; btnToggle_onclick]
             (btnConnect_onclick wei_string) mounted []) in
  session after = None
  /\ btnAddr_disabled after = false
  /\ active after = NETWORKS_0
  /\ out_textContent after
     = "Error: Cannot read properties of null (reading 'chainId')".
Proof.
  assert (Ha : alice <> "") by discriminate.
  pose proof (f_equal (@final unit)
                (toggle_during_summary_read wei_string calm mounted alice []
                   "0x14a34" 1000 2500000000000000000 eq_refl Ha eq_refl eq_refl
                   eq_refl)) as H.
  cbv zeta in H |- *. rewrite H. repeat split.
Defined.





(** Pulse and balance clicks only write the output; typing only sets the
    input. *)
Lemma perform_only_writes isAddress formatEther s a :
  match a with
  | HorizonPulse _ | CheckBalance _ =>
      perform isAddress formatEther s a
      = set_out_textContent (out_textContent (perform isAddress formatEther s a)) s
  | TypeAddress v => perform isAddress formatEther s a = set_addrInput_value v s
  | _ => True
  end.
Proof.
  destruct a as [ | w | w | v | w]; cbn [perform]; try exact I.
  - destruct (btnPulse_disabled s); [destruct s; reflexivity | ].
    unfold handle. rewrite run_btnPulse_onclick. reflexivity.
  - reflexivity.
  - destruct (btnAddr_disabled s); [destruct s; reflexivity | ].
    unfold btnAddr_onclick.
    rewrite handle_try_catch_on_error, handle_btnAddr_try.
    destruct (target_of s) as [t | ]; [ | reflexivity].
    destruct (String.eqb t ""); [reflexivity | ].
    rewrite run_check_balance_of. cbv zeta.
    destruct (isAddress t); [ | reflexivity].
    destruct (respond w _ _); reflexivity.
Qed.

Lemma perform_keeps_buttons_follow_session isAddress formatEther s a :
  buttons_follow_session s ->
  buttons_follow_session (perform isAddress formatEther s a).
Proof.
  intros [Hsame Hsession].
  pose proof (perform_only_writes isAddress formatEther s a) as Hwrites.
  destruct a as [ | w | w | v | w].
  - split; [reflexivity | discriminate].
  - cbn [perform]. unfold btnConnect_onclick.
    rewrite handle_try_catch_on_error, handle_btnConnect_try. cbv zeta.
    destruct (result (run w [] connectWallet _ [])) as [connected | e] eqn:Hwallet.
    + destruct (connectWallet_returns_well_formed w [] _ [] connected Hwallet)
        as (Haddress & _).
      destruct (result (run w [] (readSummary _) _ _)) as [info | e]; cbn.
      * split; [reflexivity | ].
        intros _. exists connected. split; [reflexivity | exact Haddress].
      * split; [exact Hsame | ].
        intros _. exists connected. split; [reflexivity | exact Haddress].
    + cbn. split; [exact Hsame | exact Hsession].
  - rewrite Hwrites. split; [exact Hsame | exact Hsession].
  - rewrite Hwrites. split; [exact Hsame | exact Hsession].
  - rewrite Hwrites. split; [exact Hsame | exact Hsession].
Qed.

(** X8. With actions handled one at a time, the two dependent buttons are
    enabled or disabled together, and they are enabled only while there is
    a session with a non-empty address: every action keeps this, so it
    holds of every page reached from the mounted one. *)
Theorem buttons_enabled_only_with_session (isAddress : string -> bool)
    (formatEther : Z -> string) (acts : list Action) :
  forall s0,
    buttons_follow_session s0 ->
    buttons_follow_session (perform_all isAddress formatEther s0 acts).
Proof.
  unfold perform_all.
  induction acts as [ | a acts IH]; intros s0 H0; cbn [fold_left].
  - exact H0.
  - apply IH. now apply perform_keeps_buttons_follow_session.
Qed.

Lemma buttons_enabled_only_with_session_witness :
  buttons_follow_session
    (perform_all hex_address wei_string mounted
       [ConnectWallet node_down; ToggleNetwork; ConnectWallet calm;
        TypeAddress bob; CheckBalance calm]).
Proof.
  apply buttons_enabled_only_with_session.
  split; [reflexivity | discriminate].
Defined.

(** X9. With actions handled one at a time from the mounted page, an
    enabled Check Balance button always has a target: the click goes on to
    the balance check of a non-empty address (the input, or else the
    session's), so the [No address provided] branch is not taken. *)
Theorem enabled_check_balance_has_target (isAddress : string -> bool)
    (formatEther : Z -> string) (acts : list Action) (w : World) :
  let s := perform_all isAddress formatEther mounted acts in
  btnAddr_disabled s = false ->
  exists t,
    t <> "" /\ target_of s = Some t
    /\ handle w (btnAddr_try isAddress formatEther) s
       = handle w (check_balance_of isAddress formatEther t) s.
Proof.
  intros s Henabled.
  assert (Hmounted : buttons_follow_session mounted)
    by (split; [reflexivity | discriminate]).
  destruct (buttons_enabled_only_with_session isAddress formatEther acts mounted
              Hmounted) as [_ Hsession].
  fold s in Hsession.
  destruct (Hsession Henabled) as (ss & Hss & Haddress).
  assert (Htarget : exists t, t <> "" /\ target_of s = Some t).
  { unfold target_of. rewrite Hss.
    destruct (String.eqb_spec (addrInput_value s) "") as [_ | Hinput]; cbn; eauto. }
  destruct Htarget as (t & Ht & Htarget).
  exists t. split; [exact Ht | split; [exact Htarget | ]].
  exact (proj1 (btnAddr_try_uses isAddress formatEther w s t Ht Htarget)).
Qed.

Lemma enabled_check_balance_has_target_witness :
  exists t,
    t <> "" /\ target_of alice_connected = Some t
    /\ handle calm (btnAddr_try hex_address wei_string) alice_connected
       = handle calm (check_balance_of hex_address wei_string t) alice_connected.
Proof.
  exact (enabled_check_balance_has_target hex_address wei_string
           [ConnectWallet calm] calm eq_refl).
Defined.

(** X10. The pulse and the balance check are read-only.  Handled on their
    own, they change nothing on the page but the output text (not the
    session, the active network, the buttons or the input), they send
    nothing to the wallet, and they issue at most two requests. *)
Theorem read_actions_only_write_output (isAddress : string -> bool)
    (formatEther : Z -> string) (w : World) (s : State) :
  let quiet (o : Outcome unit) :=
    final o = set_out_textContent (out_textContent (final o)) s
    /\ forallb (forallb (fun i => negb (to_wallet i))) (calls o) = true
    /\ (List.length (List.concat (calls o)) <= 2)%nat in
  quiet (handle w btnPulse_onclick s)
  /\ quiet (handle w (btnAddr_onclick isAddress formatEther) s).
Proof.
  cbv zeta. split.
  - unfold handle. rewrite run_btnPulse_onclick. cbn. repeat split. lia.
  - unfold btnAddr_onclick.
    rewrite handle_try_catch_on_error, handle_btnAddr_try.
    destruct (target_of s) as [t | ]; [ | cbn; repeat split; lia].
    destruct (String.eqb t ""); [cbn; repeat split; lia | ].
    rewrite run_check_balance_of. cbv zeta.
    destruct (isAddress t); [ | cbn; repeat split; lia].
    destruct (respond w _ _); cbn; repeat split; lia.
Qed.

(** The toggle's target is a registry entry, whatever the argument. *)
Lemma other_in_registry n : other n = NETWORKS_0 \/ other n = NETWORKS_1.
Proof.
  unfold other. destruct (Network.chainId n =? 84532); [now left | now right].
Qed.

(** X11. Toggling composes.  The toggle always lands on a registry entry,
    whatever was active; three toggles are one toggle; and from a registry
    entry two toggles come back to the same network but not to the same
    page: the session is absent, both dependent buttons are disabled and
    the output asks to reconnect. *)
Theorem toggle_composition (s : State) :
  In (active (btnToggle_onclick s)) NETWORKS
  /\ btnToggle_onclick (btnToggle_onclick (btnToggle_onclick s)) = btnToggle_onclick s
  /\ (In (active s) NETWORKS ->
      btnToggle_onclick (btnToggle_onclick s)
      = {| active := active s; session := None;
           btnPulse_disabled := true; btnAddr_disabled := true;
           addrInput_value := addrInput_value s;
           out_textContent :=
             "Network switched to " ++ Network.label (active s)
             ++ ". Reconnect wallet." |}).
Proof.
  split; [ | split].
  - cbn -[other]. destruct (other_in_registry (active s)) as [-> | ->];
      [now left | now right; left].
  - unfold btnToggle_onclick. cbn -[other].
    destruct (other_in_registry (active s)) as [-> | ->]; reflexivity.
  - intros Hin. destruct s as [n ss bp ba v out]. cbn in Hin.
    destruct (NETWORKS_cases n Hin) as [-> | ->]; reflexivity.
Qed.

Lemma toggle_composition_witness :
  In (active alice_connected) NETWORKS
  /\ active (btnToggle_onclick (btnToggle_onclick alice_connected)) = NETWORKS_1
  /\ session (btnToggle_onclick (btnToggle_onclick alice_connected)) = None.
Proof.
  assert (Hin : In (active alice_connected) NETWORKS) by (right; left; reflexivity).
  split; [exact Hin | ].
  destruct (toggle_composition alice_connected) as (_ & _ & H).
  rewrite (H Hin). split; reflexivity.
Defined.




